(** * countdown-python: slug allocation, UTC normalisation and the create flow

    A shallow embedding of [app.py].  Python [str] values are sequences of
    Unicode code points, Python [int] values are [Z], the operating system's
    entropy behind [secrets] is an oracle read through a cursor, the [events]
    table is the list of its rows, and exceptions are the [Raise] branch of a
    result type. *)

From Stdlib Require Import ZArith NArith Arith List Bool Lia String Ascii.
From Stdlib Require Import Sorting.Sorted Sorting.Permutation.
Import ListNotations.

Set Implicit Arguments.

(** ** Python strings *)

Module PyStr.

Definition char := N.
Definition str := list char.

Definition lit (s : string) : str :=
  List.map N_of_ascii (list_ascii_of_string s).

Definition char_eqb : char -> char -> bool := N.eqb.

Fixpoint str_eqb (a b : str) : bool :=
  match a, b with
  | [], [] => true
  | x :: a', y :: b' => char_eqb x y && str_eqb a' b'
  | _, _ => false
  end.

(** [s[i:j]] for [0 <= i <= j]. *)
Definition slice (s : str) (i j : nat) : str := firstn (j - i) (skipn i s).

Fixpoint startswith (s p : str) : bool :=
  match p, s with
  | [], _ => true
  | x :: p', y :: s' => char_eqb x y && startswith s' p'
  | _ :: _, [] => false
  end.

Definition endswith (s p : str) : bool := startswith (rev s) (rev p).

(** [str.find(c)] for a one-character needle: the index of its first
    occurrence, or -1. *)
Fixpoint find (c : char) (s : str) : Z :=
  match s with
  | [] => -1
  | x :: s' =>
      if char_eqb x c then 0
      else let r := find c s' in if r <? 0 then -1 else r + 1
  end%Z.

(** [str.replace(old, new)]: every non-overlapping occurrence of [old],
    scanning from the left.  [skip] counts the characters of a match that
    are still to be dropped. *)
Fixpoint replace_from (old new : str) (skip : nat) (s : str) : str :=
  match s with
  | [] => []
  | c :: s' =>
      match skip with
      | S k => replace_from old new k s'
      | O =>
          if startswith s old
          then new ++ replace_from old new (pred (List.length old)) s'
          else c :: replace_from old new 0 s'
      end
  end.

Definition replace (s old new : str) : str :=
  match old with
  | [] => new ++ flat_map (fun c => c :: new) s
  | _ :: _ => replace_from old new 0 s
  end.

(** The code points for which [str.isspace] holds; [str.strip()] removes
    them from both ends. *)
Definition isspace (c : char) : bool :=
  (((9 <=? c) && (c <=? 13)) || ((28 <=? c) && (c <=? 32))
  || (c =? 133) || (c =? 160) || (c =? 5760)
  || ((8192 <=? c) && (c <=? 8202))
  || (c =? 8232) || (c =? 8233) || (c =? 8239) || (c =? 8287)
  || (c =? 12288))%N.

Fixpoint lstrip (s : str) : str :=
  match s with
  | [] => []
  | c :: s' => if isspace c then lstrip s' else s
  end.

Definition rstrip (s : str) : str := rev (lstrip (rev s)).

Definition strip (s : str) : str := rstrip (lstrip s).

(** Truthiness of a string: [not s] holds for the empty string only. *)
Definition is_empty (s : str) : bool :=
  match s with [] => true | _ :: _ => false end.

End PyStr.
Import PyStr.

(** ** Exceptions and results *)

Inductive exn : Type :=
| ValueError
| OverflowError
| RecursionError
| IntegrityError.

Inductive result (A : Type) : Type :=
| Ok (a : A)
| Raise (e : exn).
Arguments Ok {A} a.
Arguments Raise {A} e.

Definition bind {A B} (r : result A) (k : A -> result B) : result B :=
  match r with
  | Ok a => k a
  | Raise e => Raise e
  end.

Declare Scope py_scope.
Delimit Scope py_scope with py.
Notation "x <- c ;; k" := (bind c (fun x => k))
  (at level 61, c at next level, right associativity) : py_scope.
Notation "'check' b ;; k" := (if b then k else Raise ValueError)
  (at level 61, b at next level, right associativity) : py_scope.

Definition is_ok {A} (r : result A) : bool :=
  match r with Ok _ => true | Raise _ => false end.

(** ** The [datetime] module

    The part of Python's [datetime] that [app.py] reaches: the proleptic
    Gregorian calendar arithmetic, fixed-offset time zones, [datetime]
    values with their constructor checks, addition of a [timedelta],
    [astimezone], [isoformat] and [fromisoformat].  The parser is the one
    of Python 3.7 to 3.10, for which [parse_iso_utc] rewrites ["Z"]: the
    grammar [YYYY-MM-DD[*HH[:MM[:SS[.fff[fff]]]][+HH:MM[:SS[.ffffff]]]]]
    that inverts [isoformat].  Digits are ASCII digits and every rejected
    string raises [ValueError]. *)

Module Datetime.
Local Open Scope Z_scope.

Definition MINYEAR : Z := 1.
Definition MAXYEAR : Z := 9999.
Definition _MAXORDINAL : Z := 3652059.

Definition _DAYS_IN_MONTH : list Z :=
  [-1; 31; 28; 31; 30; 31; 30; 31; 31; 30; 31; 30; 31].

Definition _DAYS_BEFORE_MONTH : list Z :=
  [-1; 0; 31; 59; 90; 120; 151; 181; 212; 243; 273; 304; 334].

Definition item (l : list Z) (i : Z) : Z := nth (Z.to_nat i) l 0.

Definition _is_leap (year : Z) : bool :=
  (year mod 4 =? 0) && (negb (year mod 100 =? 0) || (year mod 400 =? 0)).

Definition _days_before_year (year : Z) : Z :=
  let y := year - 1 in
  y * 365 + y / 4 - y / 100 + y / 400.

Definition _days_in_month (year month : Z) : Z :=
  if (month =? 2) && _is_leap year then 29 else item _DAYS_IN_MONTH month.

Definition _days_before_month (year month : Z) : Z :=
  item _DAYS_BEFORE_MONTH month
  + (if (2 <? month) && _is_leap year then 1 else 0).

Definition _ymd2ord (year month day : Z) : Z :=
  _days_before_year year + _days_before_month year month + day.

Definition _DI400Y : Z := 146097.
Definition _DI100Y : Z := 36524.
Definition _DI4Y : Z := 1461.

Definition _ord2ymd (n : Z) : Z * Z * Z :=
  let n := n - 1 in
  let n400 := n / _DI400Y in
  let n := n mod _DI400Y in
  let year := n400 * 400 + 1 in
  let n100 := n / _DI100Y in
  let n := n mod _DI100Y in
  let n4 := n / _DI4Y in
  let n := n mod _DI4Y in
  let n1 := n / 365 in
  let n := n mod 365 in
  let year := year + n100 * 100 + n4 * 4 + n1 in
  if (n1 =? 4) || (n100 =? 4) then (year - 1, 12, 31)
  else
    let leapyear := (n1 =? 3) && (negb (n4 =? 24) || (n100 =? 3)) in
    let month := Z.shiftr (n + 50) 5 in
    let preceding :=
      item _DAYS_BEFORE_MONTH month
      + (if (2 <? month) && leapyear then 1 else 0) in
    if n <? preceding then
      let month := month - 1 in
      let preceding :=
        preceding
        - (item _DAYS_IN_MONTH month
           + (if (month =? 2) && leapyear then 1 else 0)) in
      (year, month, n - preceding + 1)
    else (year, month, n - preceding + 1).

(** A [timedelta] is held as its total number of microseconds. *)
Definition timedelta := Z.

Definition US_PER_SECOND : Z := 1000000.
Definition US_PER_MINUTE : Z := 60 * US_PER_SECOND.
Definition US_PER_HOUR : Z := 3600 * US_PER_SECOND.
Definition US_PER_DAY : Z := 86400 * US_PER_SECOND.

Definition mk_timedelta (days hours minutes seconds microseconds : Z)
  : timedelta :=
  days * US_PER_DAY + hours * US_PER_HOUR + minutes * US_PER_MINUTE
  + seconds * US_PER_SECOND + microseconds.

(** A [timezone] is a fixed offset from UTC; [tzinfo] is [None] on a naive
    value.  [timezone.utc] is the zone of offset zero, and in this program
    every zone of offset zero is that very object. *)
Definition timezone := timedelta.
Definition utc : timezone := 0.

Definition new_timezone (offset : timedelta) : result timezone :=
  if (- US_PER_DAY <? offset) && (offset <? US_PER_DAY)
  then Ok offset else Raise ValueError.

Record datetime : Type := mk_datetime {
  year : Z;
  month : Z;
  day : Z;
  hour : Z;
  minute : Z;
  second : Z;
  microsecond : Z;
  tzinfo : option timezone
}.

Definition _check_date_fields (y m d : Z) : bool :=
  (MINYEAR <=? y) && (y <=? MAXYEAR) && (1 <=? m) && (m <=? 12)
  && (1 <=? d) && (d <=? _days_in_month y m).

Definition _check_time_fields (hh mm ss us : Z) : bool :=
  (0 <=? hh) && (hh <=? 23) && (0 <=? mm) && (mm <=? 59)
  && (0 <=? ss) && (ss <=? 59) && (0 <=? us) && (us <=? 999999).

Definition new_datetime (y m d hh mm ss us : Z) (tz : option timezone)
  : result datetime :=
  if _check_date_fields y m d && _check_time_fields hh mm ss us
  then Ok (mk_datetime y m d hh mm ss us tz)
  else Raise ValueError.

Definition replace_tzinfo (dt : datetime) (tz : option timezone) : datetime :=
  mk_datetime (year dt) (month dt) (day dt) (hour dt) (minute dt)
    (second dt) (microsecond dt) tz.

Definition toordinal (dt : datetime) : Z :=
  _ymd2ord (year dt) (month dt) (day dt).

(** [self + other]: the sum is normalised to days, seconds and
    microseconds, and a day count outside [1 .. _MAXORDINAL] raises
    [OverflowError]. *)
Definition add (self : datetime) (other : timedelta) : result datetime :=
  let delta :=
    mk_timedelta (toordinal self) (hour self) (minute self) (second self)
      (microsecond self) + other in
  let days := delta / US_PER_DAY in
  let rest := delta mod US_PER_DAY in
  let seconds := rest / US_PER_SECOND in
  let microseconds := rest mod US_PER_SECOND in
  let hh := seconds / 3600 in
  let rem := seconds mod 3600 in
  let mm := rem / 60 in
  let ss := rem mod 60 in
  if (0 <? days) && (days <=? _MAXORDINAL) then
    let '(y, m, d) := _ord2ymd days in
    Ok (mk_datetime y m d hh mm ss microseconds (tzinfo self))
  else Raise OverflowError.

Definition sub (self : datetime) (other : timedelta) : result datetime :=
  add self (- other).

(** [timezone.fromutc]. *)
Definition fromutc (tz : timezone) (dt : datetime) : result datetime :=
  add dt tz.

(** [self.astimezone(tz)].  A naive [self] is read in the system's local
    zone, whose offset at [self] is [local self]. *)
Definition astimezone (local : datetime -> timedelta)
    (self : datetime) (tz : timezone) : result datetime :=
  match tzinfo self with
  | Some mytz =>
      if mytz =? tz then Ok self
      else (u <- sub self mytz ;; fromutc tz (replace_tzinfo u (Some tz)))%py
  | None =>
      (u <- sub self (local self) ;;
       fromutc tz (replace_tzinfo u (Some tz)))%py
  end.

(** *** Printing and parsing *)

Definition is_digit (c : char) : bool := ((48 <=? c) && (c <=? 57))%N.

Definition digit_val (c : char) : Z := Z.of_N c - 48.

Definition digit_char (v : Z) : char := Z.to_N (48 + v mod 10).

(** The [w] low-order decimal digits of [v]: what ["%0wd" % v] prints for
    [0 <= v < 10^w], the only values a field of a [datetime] takes. *)
Fixpoint fmt_d (w : nat) (v : Z) : str :=
  match w with
  | O => []
  | S w' => fmt_d w' (v / 10) ++ [digit_char v]
  end.

Definition _format_time (hh mm ss us : Z) : str :=
  let base := fmt_d 2 hh ++ lit ":" ++ fmt_d 2 mm ++ lit ":" ++ fmt_d 2 ss in
  if us =? 0 then base else base ++ lit "." ++ fmt_d 6 us.

Definition _format_offset (off : option timedelta) : str :=
  match off with
  | None => []
  | Some off =>
      let sign := if off <? 0 then lit "-" else lit "+" in
      let off := if off <? 0 then - off else off in
      let hh := off / US_PER_HOUR in
      let mm := off mod US_PER_HOUR in
      let ss := mm mod US_PER_MINUTE in
      let mm := mm / US_PER_MINUTE in
      let s := sign ++ fmt_d 2 hh ++ lit ":" ++ fmt_d 2 mm in
      if ss =? 0 then s
      else
        let s := s ++ lit ":" ++ fmt_d 2 (ss / US_PER_SECOND) in
        if ss mod US_PER_SECOND =? 0 then s
        else s ++ lit "." ++ fmt_d 6 (ss mod US_PER_SECOND)
  end.

(** [self.isoformat()], with the default separator ['T']. *)
Definition isoformat (self : datetime) : str :=
  fmt_d 4 (year self) ++ lit "-" ++ fmt_d 2 (month self) ++ lit "-"
  ++ fmt_d 2 (day self) ++ lit "T"
  ++ _format_time (hour self) (minute self) (second self) (microsecond self)
  ++ _format_offset (tzinfo self).

Fixpoint int_digits (s : str) (acc : Z) : result Z :=
  match s with
  | [] => Ok acc
  | c :: s' =>
      if is_digit c then int_digits s' (acc * 10 + digit_val c)
      else Raise ValueError
  end.

(** [int(s)] on a slice that must hold exactly [k] digits. *)
Definition parse_int (k : nat) (s : str) : result Z :=
  if (List.length s =? k)%nat then int_digits s 0 else Raise ValueError.

Definition char_is (s : str) (i : nat) (c : string) : bool :=
  str_eqb (slice s i (S i)) (lit c).

Definition _parse_isoformat_date (dtstr : str) : result (list Z) :=
  (y <- parse_int 4 (slice dtstr 0 4) ;;
   check char_is dtstr 4 "-" ;;
   m <- parse_int 2 (slice dtstr 5 7) ;;
   check char_is dtstr 7 "-" ;;
   d <- parse_int 2 (slice dtstr 8 10) ;;
   Ok [y; m; d])%py.

Fixpoint set_item (l : list Z) (i : nat) (v : Z) : list Z :=
  match l, i with
  | [], _ => []
  | _ :: l', O => v :: l'
  | x :: l', S i' => x :: set_item l' i' v
  end.

(** The loop of [_parse_hh_mm_ss_ff] over the components [comp], [comp+1],
    ... up to 2; it returns the components read and the position reached. *)
Fixpoint hh_mm_ss_loop (todo comp : nat) (tstr : str) (pos : nat)
    (time_comps : list Z) : result (list Z * nat) :=
  match todo with
  | O => Ok (time_comps, pos)
  | S todo' =>
      if (List.length tstr - pos <? 2)%nat then Raise ValueError
      else
        (v <- parse_int 2 (slice tstr pos (pos + 2)) ;;
         let time_comps := set_item time_comps comp v in
         let pos := (pos + 2)%nat in
         let next_char := slice tstr pos (S pos) in
         if is_empty next_char || (2 <=? comp)%nat then Ok (time_comps, pos)
         else
           check str_eqb next_char (lit ":") ;;
           hh_mm_ss_loop todo' (S comp) tstr (S pos) time_comps)%py
  end.

Definition _parse_hh_mm_ss_ff (tstr : str) : result (list Z) :=
  (r <- hh_mm_ss_loop 3 0 tstr 0 [0; 0; 0; 0] ;;
   let '(time_comps, pos) := r in
   let len_str := List.length tstr in
   if (pos <? len_str)%nat then
     check char_is tstr pos "." ;;
     let pos := S pos in
     let len_remainder := (len_str - pos)%nat in
     check ((len_remainder =? 3) || (len_remainder =? 6))%nat ;;
     us <- parse_int len_remainder (skipn pos tstr) ;;
     Ok (set_item time_comps 3
           (if (len_remainder =? 3)%nat then us * 1000 else us))
   else Ok time_comps)%py.

Definition all_zero (l : list Z) : bool := forallb (fun x => x =? 0) l.

Definition _parse_isoformat_time (tstr : str)
  : result (list Z * option timezone) :=
  let len_str := List.length tstr in
  if (len_str <? 2)%nat then Raise ValueError
  else
    let minus := find 45%N tstr + 1 in
    let tz_pos := if minus =? 0 then find 43%N tstr + 1 else minus in
    let timestr :=
      if 0 <? tz_pos then firstn (Z.to_nat (tz_pos - 1)) tstr else tstr in
    (time_comps <- _parse_hh_mm_ss_ff timestr ;;
     if 0 <? tz_pos then
       let tzstr := skipn (Z.to_nat tz_pos) tstr in
       let n := List.length tzstr in
       check ((n =? 5) || (n =? 8) || (n =? 15))%nat ;;
       tz_comps <- _parse_hh_mm_ss_ff tzstr ;;
       if all_zero tz_comps then Ok (time_comps, Some utc)
       else
         let tzsign :=
           if char_is tstr (Z.to_nat (tz_pos - 1)) "-" then -1 else 1 in
         let td :=
           mk_timedelta 0 (item tz_comps 0) (item tz_comps 1)
             (item tz_comps 2) (item tz_comps 3) in
         tzi <- new_timezone (tzsign * td) ;;
         Ok (time_comps, Some tzi)
     else Ok (time_comps, None))%py.

(** [datetime.fromisoformat(date_string)]. *)
Definition fromisoformat (date_string : str) : result datetime :=
  let dstr := slice date_string 0 10 in
  let tstr := skipn 11 date_string in
  (date_components <- _parse_isoformat_date dstr ;;
   r <- (if is_empty tstr then Ok ([0; 0; 0; 0], None)
         else _parse_isoformat_time tstr) ;;
   let '(time_components, tzi) := r in
   new_datetime (item date_components 0) (item date_components 1)
     (item date_components 2) (item time_components 0)
     (item time_components 1) (item time_components 2)
     (item time_components 3) tzi)%py.

End Datetime.
Import Datetime.

(** ** The [events] table *)

Record Event : Type := mk_Event {
  id : Z;
  slug : str;
  title : str;
  until_utc : datetime;
  created_at : datetime
}.

(** The table is the list of its rows, oldest first. *)
Definition table := list Event.

(** [session.scalar(select(Event).where(Event.slug == s))]: the first row
    with that slug, or [None]. *)
Definition select_by_slug (db : table) (s : str) : option Event :=
  List.find (fun ev => str_eqb (slug ev) s) db.

Definition next_id (db : table) : Z :=
  (1 + fold_right Z.max 0 (List.map id db))%Z.

(** [session.add(ev); session.commit()] for a row built from [slug],
    [title] and [until_utc]: the unique constraint [uq_events_slug] rejects
    a slug that a row already carries; otherwise the row is stored with a
    fresh [id] and [created_at] set to the current UTC instant [now].
    Column widths are not enforced, as in the default SQLite store. *)
Definition add_commit (now : datetime) (db : table)
    (slug title : str) (until_utc : datetime) : result table :=
  match select_by_slug db slug with
  | Some _ => Raise IntegrityError
  | None => Ok (db ++ [mk_Event (next_id db) slug title until_utc now])
  end.

(** Rows committed by other sessions, in order; a rejected one changes
    nothing. *)
Fixpoint commit_all (db : table) (rows : list Event) : table :=
  match rows with
  | [] => db
  | ev :: rows' =>
      match add_commit (created_at ev) db (slug ev) (title ev) (until_utc ev)
      with
      | Ok db' => commit_all db' rows'
      | Raise _ => commit_all db rows'
      end
  end.

(** ** Helpers *)

Definition ALPHABET : str :=
  lit "abcdefghijklmnopqrstuvwxyz" ++ lit "0123456789".

Section App.

(** The values the operating system's random source hands out, in order;
    a [cursor] counts how many have been consumed. *)
Variable entropy : nat -> nat.
Definition cursor := nat.

(** The offset of the system's local zone, for [astimezone] on a naive
    value. *)
Variable local : datetime -> timedelta.

Definition randbelow (k : nat) (c : cursor) : nat * cursor :=
  (entropy c mod k, S c).

(** [secrets.choice(seq)] is [seq[randbelow(len(seq))]]. *)
Definition choice (seq : str) (c : cursor) : char * cursor :=
  let (i, c') := randbelow (List.length seq) c in
  (nth i seq 0%N, c').

(** ["".join(secrets.choice(ALPHABET) for _ in range(k))]. *)
Fixpoint join_choices (k : nat) (c : cursor) : str * cursor :=
  match k with
  | O => ([], c)
  | S k' =>
      let (x, c1) := choice ALPHABET c in
      let (xs, c2) := join_choices k' c1 in
      (x :: xs, c2)
  end.

(** [range(n)] is empty for [n <= 0]. *)
Definition gen_slug (n : Z) (c : cursor) : str * cursor :=
  join_choices (Z.to_nat n) c.

(** The [for _ in range(10)] loop of [ensure_unique_slug], with [k]
    iterations left. *)
Fixpoint try_slugs (k : nat) (db : table) (n : Z) (c : cursor)
  : option str * cursor :=
  match k with
  | O => (None, c)
  | S k' =>
      let (s, c') := gen_slug n c in
      match select_by_slug db s with
      | None => (Some s, c')
      | Some _ => try_slugs k' db n c'
      end
  end.

(** [depth] is the number of nested calls the interpreter still allows;
    exceeding it raises [RecursionError]. *)
Fixpoint ensure_unique_slug (depth : nat) (db : table) (n : Z) (c : cursor)
  : result str * cursor :=
  match depth with
  | O => (Raise RecursionError, c)
  | S depth' =>
      match try_slugs 10 db n c with
      | (Some s, c') => (Ok s, c')
      | (None, c') => ensure_unique_slug depth' db (n + 1) c'
      end
  end.

Definition parse_iso_utc (iso : str) : result datetime :=
  let iso :=
    if endswith iso (lit "Z") then replace iso (lit "Z") (lit "+00:00")
    else iso in
  (dt <- fromisoformat iso ;;
   let dt :=
     match tzinfo dt with
     | None => replace_tzinfo dt (Some utc)
     | Some _ => dt
     end in
   astimezone local dt utc)%py.

(** ** Routes *)

(** [request.form]: the submitted fields in order; [get] returns the first
    value of a key, or [None]. *)
Definition form := list (str * str).

Fixpoint form_get (f : form) (key : str) : option str :=
  match f with
  | [] => None
  | (k, v) :: f' => if str_eqb k key then Some v else form_get f' key
  end.

(** [x or ""]. *)
Definition or_empty (x : option str) : str :=
  match x with
  | Some s => s
  | None => []
  end.

Inductive abort_message : Type :=
| RequiredFields
| InvalidDateTime (e : exn)
| NotFound.

Inductive response : Type :=
| Aborted (status : Z) (message : abort_message)
| Redirected (status : Z) (location : str)
| Rendered (title slug until_iso server_utc_now : str)
| Unhandled (e : exn).

(** The status a client sees. *)
Definition status_of (r : response) : Z :=
  match r with
  | Aborted st _ => st
  | Redirected st _ => st
  | Rendered _ _ _ _ => 200
  | Unhandled _ => 500
  end.

(** [url_for("event_page", slug=slug)]. *)
Definition url_for_event_page (slug : str) : str := lit "/e/" ++ slug.

Record world : Type := mk_world {
  db : table;
  rng : cursor
}.

(** [POST /create].  [now] is the clock reading that fills [created_at];
    [concurrent] holds the rows other sessions commit after this request
    has allocated its slug and before it commits. *)
Definition create (depth : nat) (now : datetime) (concurrent : list Event)
    (f : form) (w : world) : response * world :=
  let title := strip (or_empty (form_get f (lit "title"))) in
  let until_iso := strip (or_empty (form_get f (lit "until_iso"))) in
  if is_empty title || is_empty until_iso then
    (Aborted 400 RequiredFields, w)
  else
    match parse_iso_utc until_iso with
    | Raise e => (Aborted 400 (InvalidDateTime e), w)
    | Ok until_utc =>
        match ensure_unique_slug depth (db w) 6 (rng w) with
        | (Raise e, c) => (Unhandled e, mk_world (db w) c)
        | (Ok slug, c) =>
            let db1 := commit_all (db w) concurrent in
            match add_commit now db1 slug (firstn 200 title) until_utc with
            | Raise e => (Unhandled e, mk_world db1 c)
            | Ok db2 =>
                (Redirected 302 (url_for_event_page slug), mk_world db2 c)
            end
        end
    end.

(** The serialisation of an instant in [event_page], [index] and
    [api_time]: [d.isoformat().replace("+00:00", "Z")]. *)
Definition iso_z (d : datetime) : str :=
  replace (isoformat d) (lit "+00:00") (lit "Z").

(** [GET /e/<slug>], rendering [event.html] from four strings. *)
Definition event_page (now : datetime) (w : world) (s : str) : response :=
  match select_by_slug (db w) s with
  | None => Aborted 404 NotFound
  | Some ev =>
      match astimezone local (until_utc ev) utc with
      | Raise e => Unhandled e
      | Ok u => Rendered (title ev) (slug ev) (iso_z u) (iso_z now)
      end
  end.

(** [GET /api/time]: the value of the key [utc_now]. *)
Definition api_time (now : datetime) : str := iso_z now.

End App.

(** * Vocabulary of the properties *)

(** The longest slug of the table. *)
Definition max_len (db : table) : nat :=
  fold_right Nat.max 0 (List.map (fun ev => List.length (slug ev)) db).

(** The [j]-th candidate of a round of attempts at length [n] that starts
    with [c] values consumed. *)
Definition candidate (entropy : nat -> nat) (n : Z) (c : cursor) (j : nat)
  : str :=
  fst (gen_slug entropy n (c + j * Z.to_nat n)).

(** The nesting that always suffices: one call per length from [n] up to
    one more than the longest stored slug. *)
Definition depth_bound (db : table) (n : Z) : nat :=
  S (Z.to_nat (Z.of_nat (max_len db) + 1 - n)).

Local Open Scope Z_scope.

(** [P] on the [2^k] integers from [lo] on. *)
Fixpoint forall_range (k : nat) (lo : Z) (P : Z -> bool) : bool :=
  match k with
  | O => P lo
  | S k' => forall_range k' lo P && forall_range k' (lo + 2 ^ Z.of_nat k') P
  end.

(** The day of ordinal [n] is a date of the calendar whose ordinal is
    [n]. *)
Definition ord_ok (n : Z) : bool :=
  let '(y, m, d) := _ord2ymd n in
  _check_date_fields y m d && (_ymd2ord y m d =? n).

Definition cycle_check (n : Z) : bool := (_DI400Y <? n) || ord_ok n.

(** What the constructors of [datetime] and [timezone] accept. *)
Definition valid_datetime (dt : datetime) : Prop :=
  _check_date_fields (year dt) (month dt) (day dt) = true
  /\ _check_time_fields (hour dt) (minute dt) (second dt) (microsecond dt)
     = true
  /\ match tzinfo dt with
     | Some off => - US_PER_DAY < off < US_PER_DAY
     | None => True
     end.

(** Microseconds from the start of ordinal day 0 to the wall-clock reading
    of [dt]. *)
Definition wall_us (dt : datetime) : Z :=
  mk_timedelta (toordinal dt) (hour dt) (minute dt) (second dt)
    (microsecond dt).

(** The offset of [dt], a naive value being read as UTC. *)
Definition offset_or_utc (dt : datetime) : timedelta :=
  match tzinfo dt with
  | Some off => off
  | None => utc
  end.

(** The point in time [dt] denotes, in microseconds on the UTC scale. *)
Definition instant (dt : datetime) : Z := wall_us dt - offset_or_utc dt.

(** The ordinal of the UTC day on which [dt] falls. *)
Definition utc_day (dt : datetime) : Z := instant dt / US_PER_DAY.

(** A string of [w] digits that [int] reads as [v]. *)
Definition digits (w : nat) (v : Z) (l : str) : Prop :=
  List.length l = w
  /\ Forall (fun c => is_digit c = true) l
  /\ int_digits l 0 = Ok v.

Local Close Scope Z_scope.

(** Every rejection of the parser is a [ValueError]. *)
Definition only_ValueError {A : Type} (r : result A) : Prop :=
  forall e, r = Raise e -> e = ValueError.

(** The text handed to [fromisoformat]: with a final ["Z"], every ["Z"] of
    the input is replaced. *)
Definition z_replaced (iso : str) : str :=
  if endswith iso (lit "Z") then replace iso (lit "Z") (lit "+00:00")
  else iso.

(** A naive value is given the zone UTC, its fields unchanged. *)
Definition assume_utc (dt : datetime) : datetime :=
  match tzinfo dt with
  | None => replace_tzinfo dt (Some utc)
  | Some _ => dt
  end.

(** The two fields of the form as [create] reads them. *)
Definition submitted_title (f : form) : str :=
  strip (or_empty (form_get f (lit "title"))).

Definition submitted_until (f : form) : str :=
  strip (or_empty (form_get f (lit "until_iso"))).

(** *** Sample inputs *)

Definition sample_now : datetime := mk_datetime 2025 1 1 12 0 0 0 (Some utc).

Definition sample_form (title until_iso : str) : form :=
  [(lit "title", title); (lit "until_iso", until_iso)].

Definition sample_row (s : string) : Event :=
  mk_Event 1 (lit s) (lit "Launch") sample_now sample_now.

Definition long_title : str := lit "  " ++ repeat 120%N 250 ++ lit " ".

(** * The configuration helper and the index route *)

(** [s.replace(old, new, 1)]: the leftmost occurrence of [old] only. *)
Fixpoint replace_first_from (old new s : str) : str :=
  match s with
  | [] => []
  | c :: s' =>
      if startswith s old then new ++ skipn (List.length old) s
      else c :: replace_first_from old new s'
  end.

Definition replace_first (s old new : str) : str :=
  match old with
  | [] => new ++ s
  | _ :: _ => replace_first_from old new s
  end.

(** A [dict] with string keys and values, in insertion order: assigning to
    a key that is present keeps its place. *)
Definition dict := list (str * str).

Fixpoint dict_set (d : dict) (k v : str) : dict :=
  match d with
  | [] => [(k, v)]
  | (k', v') :: d' =>
      if str_eqb k' k then (k', v) :: d' else (k', v') :: dict_set d' k v
  end.

Definition dict_of_pairs (pairs : list (str * str)) : dict :=
  fold_left (fun d kv => dict_set d (fst kv) (snd kv)) pairs [].

Definition dict_has (d : dict) (k : str) : bool :=
  existsb (fun kv => str_eqb (fst kv) k) d.

Section Config.

(** The functions of [urllib.parse] that [normalize_db_url] calls:
    [urlparse], which raises [ValueError] on a malformed network location,
    the attributes [hostname] and [query] of its result, [parse_qsl],
    [urlencode], and [urlunparse] of a result whose query was replaced. *)
Variable parsed : Type.
Variable urlparse : str -> result parsed.
Variable hostname : parsed -> option str.
Variable query : parsed -> str.
Variable parse_qsl : str -> list (str * str).
Variable urlencode : dict -> str.
Variable urlunparse_with_query : parsed -> str -> str.

Definition normalize_db_url (url : str) : result str :=
  if is_empty url then Ok (lit "sqlite:///events.db")
  else
    let url :=
      if startswith url (lit "postgres://") then
        replace_first url (lit "postgres://") (lit "postgresql+psycopg://")
      else if startswith url (lit "postgresql://") then
        replace_first url (lit "postgresql://") (lit "postgresql+psycopg://")
      else url in
    (p <- urlparse url ;;
     let q := dict_of_pairs (parse_qsl (query p)) in
     if endswith (or_empty (hostname p)) (lit ".render.com")
        && negb (dict_has q (lit "sslmode"))
     then
       let q := dict_set q (lit "sslmode") (lit "require") in
       Ok (urlunparse_with_query p (urlencode q))
     else Ok url)%py.

(** The second half of [normalize_db_url] on its own: [sslmode=require]
    for a host of Render whose query does not set [sslmode]. *)
Definition require_ssl (url : str) : result str :=
  (p <- urlparse url ;;
   let q := dict_of_pairs (parse_qsl (query p)) in
   if endswith (or_empty (hostname p)) (lit ".render.com")
      && negb (dict_has q (lit "sslmode"))
   then
     let q := dict_set q (lit "sslmode") (lit "require") in
     Ok (urlunparse_with_query p (urlencode q))
   else Ok url)%py.

(** [DB_URL], from the value of [DATABASE_URL] in the environment. *)
Definition DB_URL (env : option str) : result str :=
  normalize_db_url
    (match env with
     | Some v => v
     | None => lit "sqlite:///events.db"
     end).

End Config.

(** [select(Event).order_by(Event.created_at.desc())]: the rows by
    decreasing instant of creation; rows of one instant, whose order the
    store leaves open, keep the order of the table. *)
Fixpoint insert_desc (ev : Event) (l : list Event) : list Event :=
  match l with
  | [] => [ev]
  | x :: l' =>
      if (instant (created_at x) <=? instant (created_at ev))%Z
      then ev :: l
      else x :: insert_desc ev l'
  end.

Definition order_by_created_at_desc (db : table) : list Event :=
  fold_right insert_desc [] db.

(** What [index] hands to the template [index.html]. *)
Record index_page : Type := mk_index_page {
  events : list Event;
  server_utc_now : str
}.

(** [GET /]. *)
Definition index (now : datetime) (w : world) : index_page :=
  mk_index_page (firstn 8 (order_by_created_at_desc (db w))) (iso_z now).

(** A toy [urllib]: the URL is its own parse, every host is of Render, and
    the query is what follows the first ["?"]. *)
Definition toy_query (u : str) : str :=
  match find 63%N u with
  | Z.neg _ => []
  | i => skipn (S (Z.to_nat i)) u
  end.

Definition toy_parse_qsl (q : str) : list (str * str) :=
  match q with
  | [] => []
  | _ :: _ => [(firstn (Z.to_nat (find 61%N q)) q,
                skipn (S (Z.to_nat (find 61%N q))) q)]
  end.

Definition toy_urlencode (d : dict) : str :=
  flat_map (fun kv => fst kv ++ lit "=" ++ snd kv ++ lit "&") d.

(** A form value that [create] takes as missing: absent, empty, or made of
    whitespace only. *)
Definition blank (x : option str) : Prop :=
  Forall (fun c => isspace c = true) (or_empty x).

(** Not older than: the order of [index]. *)
Definition not_older (a b : Event) : Prop :=
  (instant (created_at b) <= instant (created_at a))%Z.

(** * Properties *)

(** ** Strings *)

Lemma char_eqb_eq (a b : char) : char_eqb a b = true <-> a = b.
Proof. apply N.eqb_eq. Qed.

Lemma str_eqb_eq (a b : str) : str_eqb a b = true <-> a = b.
Proof.
  revert b; induction a as [|x a IH]; intros [|y b]; simpl;
    try (split; [discriminate | congruence]).
  - split; reflexivity.
  - rewrite andb_true_iff, char_eqb_eq, IH. split.
    + intros [-> ->]; reflexivity.
    + intros H; injection H; auto.
Qed.


Lemma str_eqb_neq (a b : str) : str_eqb a b = false <-> a <> b.
Proof.
  rewrite <- str_eqb_eq. destruct (str_eqb a b); split; congruence.
Qed.

(** ** The table *)

Lemma select_by_slug_None (db : table) (s : str) :
  select_by_slug db s = None <-> ~ In s (List.map slug db).
Proof.
  unfold select_by_slug. induction db as [|ev db IH]; simpl.
  - tauto.
  - destruct (str_eqb (slug ev) s) eqn:E.
    + apply str_eqb_eq in E. split; [discriminate | tauto].
    + apply str_eqb_neq in E. rewrite IH. tauto.
Qed.

Lemma select_by_slug_Some (db : table) (s : str) (ev : Event) :
  select_by_slug db s = Some ev -> In ev db /\ slug ev = s.
Proof.
  unfold select_by_slug. intros H. apply find_some in H.
  destruct H as [H1 H2]. apply str_eqb_eq in H2. auto.
Qed.

Lemma max_len_ge (db : table) (s : str) :
  In s (List.map slug db) -> List.length s <= max_len db.
Proof.
  unfold max_len. induction db as [|ev db IH]; simpl.
  - tauto.
  - intros [<- | H]; [lia | specialize (IH H); lia].
Qed.

(** ** The slug generator *)

Lemma ALPHABET_length : List.length ALPHABET = 36.
Proof. reflexivity. Qed.

Lemma ALPHABET_NoDup : NoDup ALPHABET.
Proof.
  unfold ALPHABET; simpl.
  repeat (constructor; [simpl; intuition discriminate|]). constructor.
Qed.

(** The alphabet is exactly the lowercase ASCII letters and the digits. *)
Lemma ALPHABET_spec (x : char) :
  In x ALPHABET <->
  ((N_of_ascii "a" <= x <= N_of_ascii "z")
   \/ (N_of_ascii "0" <= x <= N_of_ascii "9"))%N.
Proof.
  split.
  - unfold ALPHABET; simpl.
    intros H; repeat (destruct H as [<- | H]; [lia|]); destruct H.
  - simpl. intros H.
    assert (Hx : (48 <= x <= 57 \/ 97 <= x <= 122)%N) by lia. clear H.
    assert (Hn : exists k, x = N.of_nat k /\ (k <= 122)%nat).
    { exists (N.to_nat x). split; lia. }
    destruct Hn as (k & -> & Hk).
    do 123 (destruct k as [|k]; [try lia; vm_compute; tauto|]). lia.
Qed.

Section SlugProperties.
Variable entropy : nat -> nat.

Lemma choice_ALPHABET (c : cursor) :
  In (fst (choice entropy ALPHABET c)) ALPHABET
  /\ snd (choice entropy ALPHABET c) = S c.
Proof.
  unfold choice, randbelow. cbn [fst snd]. split; [|reflexivity].
  apply nth_In. rewrite ALPHABET_length.
  apply Nat.mod_upper_bound. discriminate.
Qed.

Lemma join_choices_spec (k : nat) (c : cursor) :
  List.length (fst (join_choices entropy k c)) = k
  /\ Forall (fun x => In x ALPHABET) (fst (join_choices entropy k c))
  /\ snd (join_choices entropy k c) = c + k.
Proof.
  revert c; induction k as [|k IH]; intros c; cbn [join_choices].
  - cbn [fst snd List.length]. repeat split; [constructor | lia].
  - pose proof (choice_ALPHABET c) as [Hin Hc].
    destruct (choice entropy ALPHABET c) as [x c1].
    cbn [fst snd] in Hin, Hc. subst c1.
    specialize (IH (S c)).
    destruct (join_choices entropy k (S c)) as [xs c2].
    cbn [fst snd List.length] in *.
    destruct IH as (Hl & Hf & Hs). repeat split; [lia | | lia].
    constructor; assumption.
Qed.

Lemma gen_slug_spec (n : Z) (c : cursor) :
  List.length (fst (gen_slug entropy n c)) = Z.to_nat n
  /\ Forall (fun x => In x ALPHABET) (fst (gen_slug entropy n c))
  /\ snd (gen_slug entropy n c) = c + Z.to_nat n.
Proof. apply join_choices_spec. Qed.

(** ** The uniqueness loop *)

Lemma try_slugs_first_free (db : table) (n : Z) (k j : nat) (c : cursor) :
  j < k ->
  (forall i, i < j -> In (candidate entropy n c i) (List.map slug db)) ->
  ~ In (candidate entropy n c j) (List.map slug db) ->
  try_slugs entropy k db n c
  = (Some (candidate entropy n c j), c + S j * Z.to_nat n).
Proof.
  revert j c; induction k as [|k IH]; intros j c Hj Hbefore Hfree; [lia|].
  simpl. pose proof (gen_slug_spec n c) as (_ & _ & Hc).
  destruct (gen_slug entropy n c) as [s c1] eqn:G. simpl in Hc. subst c1.
  assert (Hs : s = candidate entropy n c 0).
  { unfold candidate. rewrite Nat.add_0_r, G. reflexivity. }
  destruct j as [|j].
  - rewrite <- Hs in Hfree. apply select_by_slug_None in Hfree.
    rewrite Hfree, <- Hs. f_equal. lia.
  - assert (Hin : In s (List.map slug db)) by (rewrite Hs; apply Hbefore; lia).
    destruct (select_by_slug db s) eqn:E.
    2:{ apply select_by_slug_None in E. contradiction. }
    assert (Hshift : forall i,
               candidate entropy n (c + Z.to_nat n) i
               = candidate entropy n c (S i)).
    { intros i. unfold candidate. f_equal. f_equal. lia. }
    rewrite (IH j (c + Z.to_nat n)).
    + rewrite Hshift. f_equal. lia.
    + lia.
    + intros i Hi. rewrite Hshift. apply Hbefore. lia.
    + rewrite Hshift. assumption.
Qed.

Lemma try_slugs_all_taken (db : table) (n : Z) (k : nat) (c : cursor) :
  (forall i, i < k -> In (candidate entropy n c i) (List.map slug db)) ->
  try_slugs entropy k db n c = (None, c + k * Z.to_nat n).
Proof.
  revert c; induction k as [|k IH]; intros c Hall; simpl.
  - f_equal. lia.
  - pose proof (gen_slug_spec n c) as (_ & _ & Hc).
    destruct (gen_slug entropy n c) as [s c1] eqn:G. simpl in Hc. subst c1.
    assert (Hs : s = candidate entropy n c 0).
    { unfold candidate. rewrite Nat.add_0_r, G. reflexivity. }
    assert (Hin : In s (List.map slug db)) by (rewrite Hs; apply Hall; lia).
    destruct (select_by_slug db s) eqn:E.
    2:{ apply select_by_slug_None in E. contradiction. }
    rewrite IH.
    + f_equal. lia.
    + intros i Hi.
      replace (candidate entropy n (c + Z.to_nat n) i)
        with (candidate entropy n c (S i)).
      * apply Hall. lia.
      * unfold candidate. f_equal. f_equal. lia.
Qed.

Lemma try_slugs_Some (db : table) (n : Z) (k : nat) (c c' : cursor) (s : str) :
  try_slugs entropy k db n c = (Some s, c') ->
  ~ In s (List.map slug db) /\ List.length s = Z.to_nat n
  /\ Forall (fun x => In x ALPHABET) s.
Proof.
  revert c; induction k as [|k IH]; intros c; simpl; [discriminate|].
  pose proof (gen_slug_spec n c) as (Hl & Hf & _).
  destruct (gen_slug entropy n c) as [s1 c1]. simpl in Hl, Hf.
  destruct (select_by_slug db s1) eqn:E.
  - apply IH.
  - intros H; injection H as <- <-.
    apply select_by_slug_None in E. auto.
Qed.

Lemma ensure_unique_slug_S (depth : nat) (db : table) (n : Z) (c : cursor) :
  ensure_unique_slug entropy (S depth) db n c
  = match try_slugs entropy 10 db n c with
    | (Some s, c') => (Ok s, c')
    | (None, c') => ensure_unique_slug entropy depth db (n + 1) c'
    end.
Proof. reflexivity. Qed.

Lemma ensure_unique_slug_returns (db : table) (m : nat) :
  forall (n : Z) (c : cursor),
    Z.to_nat (Z.of_nat (max_len db) + 1 - n) <= m ->
    exists s c',
      (forall depth, S m <= depth ->
         ensure_unique_slug entropy depth db n c = (Ok s, c'))
      /\ ~ In s (List.map slug db)
      /\ Forall (fun x => In x ALPHABET) s.
Proof.
  induction m as [|m IH]; intros n c Hm.
  - (* every candidate is longer than every stored slug *)
    assert (Hfree : ~ In (candidate entropy n c 0) (List.map slug db)).
    { intros Hin. apply max_len_ge in Hin. unfold candidate in Hin.
      pose proof (gen_slug_spec n (c + 0 * Z.to_nat n)) as (Hl & _).
      rewrite Hl in Hin. lia. }
    pose proof (@try_slugs_first_free db n 10 0 c ltac:(lia)
                  ltac:(intros; lia) Hfree) as T.
    exists (candidate entropy n c 0), (c + 1 * Z.to_nat n). split.
    + intros [|depth] Hd; [lia|].
      rewrite ensure_unique_slug_S, T. reflexivity.
    + split; [assumption|]. apply gen_slug_spec.
  - destruct (try_slugs entropy 10 db n c) as [[s|] c1] eqn:T.
    + exists s, c1. split.
      * intros [|depth] Hd; [lia|].
        rewrite ensure_unique_slug_S, T. reflexivity.
      * apply try_slugs_Some in T. tauto.
    + destruct (IH (n + 1)%Z c1 ltac:(lia)) as (s & c' & Hret & Hfresh).
      exists s, c'. split; [|assumption].
      intros [|depth] Hd; [lia|].
      rewrite ensure_unique_slug_S, T. apply Hret. lia.
Qed.

End SlugProperties.

(** C3: for every length [n >= 1], [gen_slug n] returns (it is a total
    function that only advances the random source by [n] draws) a string of
    exactly [n] characters, each one of the 36 distinct symbols of the
    alphabet, which are the lowercase ASCII letters and the digits. *)
Theorem gen_slug_length_alphabet (entropy : nat -> nat) (n : Z) (c : cursor) :
  (1 <= n)%Z ->
  exists s c',
    gen_slug entropy n c = (s, c')
    /\ Z.of_nat (List.length s) = n
    /\ Forall (fun x => In x ALPHABET) s
    /\ Forall (fun x => (97 <= x <= 122 \/ 48 <= x <= 57)%N) s
    /\ c' = c + Z.to_nat n
    /\ List.length ALPHABET = 36 /\ NoDup ALPHABET.
Proof.
  intros Hn. pose proof (gen_slug_spec entropy n c) as (Hl & Hf & Hc).
  destruct (gen_slug entropy n c) as [s c']. cbn [fst snd] in *.
  exists s, c'. repeat split; auto using ALPHABET_NoDup; [lia|].
  eapply Forall_impl; [|exact Hf]. intros x Hx. apply ALPHABET_spec in Hx.
  exact Hx.
Qed.

Lemma gen_slug_length_alphabet_witness :
  (1 <= 6)%Z /\
  exists s c',
    gen_slug (fun i => 7 * i + 3) 6 0 = (s, c')
    /\ Z.of_nat (List.length s) = 6%Z
    /\ Forall (fun x => In x ALPHABET) s
    /\ Forall (fun x => (97 <= x <= 122 \/ 48 <= x <= 57)%N) s
    /\ c' = 0 + Z.to_nat 6
    /\ List.length ALPHABET = 36 /\ NoDup ALPHABET.
Proof.
  split; [lia|].
  apply (@gen_slug_length_alphabet (fun i => 7 * i + 3) 6%Z 0). lia.
Defined.

(** C10: [gen_slug] is total for every length [n >= 0], returning a string
    over the alphabet of exactly that length; at the edge, [gen_slug 0] is
    the empty string and leaves the random source untouched. *)
Theorem gen_slug_total_from_zero (entropy : nat -> nat) (n : Z) (c : cursor) :
  (0 <= n)%Z ->
  gen_slug entropy 0 c = ([], c)
  /\ exists s c',
       gen_slug entropy n c = (s, c')
       /\ Z.of_nat (List.length s) = n
       /\ Forall (fun x => In x ALPHABET) s.
Proof.
  intros Hn. split; [reflexivity|].
  pose proof (gen_slug_spec entropy n c) as (Hl & Hf & _).
  destruct (gen_slug entropy n c) as [s c']. cbn [fst snd] in *.
  exists s, c'. repeat split; auto. lia.
Qed.

Lemma gen_slug_total_from_zero_witness :
  (0 <= 0)%Z /\
  gen_slug (fun i => i) 0 5 = ([], 5)
  /\ exists s c',
       gen_slug (fun i => i) 0 5 = (s, c')
       /\ Z.of_nat (List.length s) = 0%Z
       /\ Forall (fun x => In x ALPHABET) s.
Proof.
  split; [lia|]. apply (@gen_slug_total_from_zero (fun i => i) 0%Z 5). lia.
Defined.

(** C1: on a table of [N] distinct slugs with [N < 36^n],
    [ensure_unique_slug db n] returns, at every nesting allowance from
    [depth_bound db n] on, one slug that no row carries.  A call makes at
    most 10 attempts at length [n]: it returns the first candidate that is
    absent from the table, and when all 10 are present it is the call at
    length [n + 1], which starts a new round of 10.  The growing length is
    what makes the call return, so the conclusion holds on every table; the
    two hypotheses are those of the specification. *)
Theorem ensure_unique_slug_fresh
    (entropy : nat -> nat) (db : table) (n : Z) (c : cursor) :
  NoDup (List.map slug db) ->
  (Z.of_nat (List.length db) < 36 ^ n)%Z ->
  (exists s c',
      (forall depth, depth_bound db n <= depth ->
         ensure_unique_slug entropy depth db n c = (Ok s, c'))
      /\ select_by_slug db s = None
      /\ ~ In s (List.map slug db))
  /\ (forall depth j,
        j < 10 ->
        (forall i, i < j -> In (candidate entropy n c i) (List.map slug db)) ->
        ~ In (candidate entropy n c j) (List.map slug db) ->
        ensure_unique_slug entropy (S depth) db n c
        = (Ok (candidate entropy n c j), c + S j * Z.to_nat n))
  /\ (forall depth,
        (forall i, i < 10 -> In (candidate entropy n c i) (List.map slug db)) ->
        ensure_unique_slug entropy (S depth) db n c
        = ensure_unique_slug entropy depth db (n + 1) (c + 10 * Z.to_nat n)).
Proof.
  intros _ _. split; [|split].
  - destruct (@ensure_unique_slug_returns entropy db
                (Z.to_nat (Z.of_nat (max_len db) + 1 - n)) n c (le_n _))
      as (s & c' & Hret & Hfresh & _).
    exists s, c'. split; [exact Hret|]. split; [|exact Hfresh].
    apply select_by_slug_None. exact Hfresh.
  - intros depth j Hj Hbefore Hfree.
    rewrite ensure_unique_slug_S.
    rewrite (@try_slugs_first_free entropy db n 10 j c Hj Hbefore Hfree).
    reflexivity.
  - intros depth Hall.
    rewrite ensure_unique_slug_S.
    rewrite (@try_slugs_all_taken entropy db n 10 c Hall). reflexivity.
Qed.

(** ** The calendar *)

Module Calendar.
Import Datetime.
Local Open Scope Z_scope.

Lemma forall_range_spec (P : Z -> bool) (k : nat) :
  forall lo, forall_range k lo P = true ->
  forall n, lo <= n < lo + 2 ^ Z.of_nat k -> P n = true.
Proof.
  induction k as [|k IH]; intros lo H n Hn.
  - simpl in *. replace n with lo by lia. exact H.
  - cbn [forall_range] in H. apply andb_true_iff in H. destruct H as [H1 H2].
    rewrite Nat2Z.inj_succ, Z.pow_succ_r in Hn by lia.
    destruct (Z_lt_ge_dec n (lo + 2 ^ Z.of_nat k)).
    + apply (IH lo H1). lia.
    + apply (IH _ H2). lia.
Qed.

(** One 400-year cycle, checked day by day. *)
Lemma cycle_checked : forall_range 18 1 cycle_check = true.
Proof. vm_compute. reflexivity. Qed.

Lemma ord_ok_cycle (n : Z) : 1 <= n <= _DI400Y -> ord_ok n = true.
Proof.
  intros Hn.
  assert (H : cycle_check n = true).
  { apply (forall_range_spec cycle_check 18 cycle_checked).
    unfold _DI400Y in Hn. simpl. lia. }
  unfold cycle_check in H. apply orb_true_iff in H.
  destruct H as [H|H]; [|exact H].
  apply Z.ltb_lt in H. lia.
Qed.

Lemma is_leap_period (y q : Z) : _is_leap (y + 400 * q) = _is_leap y.
Proof.
  unfold _is_leap.
  replace ((y + 400 * q) mod 4) with (y mod 4)
    by (replace (y + 400 * q) with (y + (100 * q) * 4) by ring;
        symmetry; apply Z_mod_plus_full).
  replace ((y + 400 * q) mod 100) with (y mod 100)
    by (replace (y + 400 * q) with (y + (4 * q) * 100) by ring;
        symmetry; apply Z_mod_plus_full).
  replace ((y + 400 * q) mod 400) with (y mod 400)
    by (replace (y + 400 * q) with (y + q * 400) by ring;
        symmetry; apply Z_mod_plus_full).
  reflexivity.
Qed.

Lemma days_before_year_period (y q : Z) :
  _days_before_year (y + 400 * q) = _days_before_year y + _DI400Y * q.
Proof.
  unfold _days_before_year, _DI400Y. cbv zeta.
  replace (y + 400 * q - 1) with (y - 1 + 400 * q) by ring.
  replace ((y - 1 + 400 * q) / 4) with ((y - 1) / 4 + 100 * q)
    by (replace (y - 1 + 400 * q) with (y - 1 + (100 * q) * 4) by ring;
        symmetry; apply Z_div_plus_full; discriminate).
  replace ((y - 1 + 400 * q) / 100) with ((y - 1) / 100 + 4 * q)
    by (replace (y - 1 + 400 * q) with (y - 1 + (4 * q) * 100) by ring;
        symmetry; apply Z_div_plus_full; discriminate).
  replace ((y - 1 + 400 * q) / 400) with ((y - 1) / 400 + q)
    by (replace (y - 1 + 400 * q) with (y - 1 + q * 400) by ring;
        symmetry; apply Z_div_plus_full; discriminate).
  ring.
Qed.

Lemma ymd2ord_period (y m d q : Z) :
  _ymd2ord (y + 400 * q) m d = _ymd2ord y m d + _DI400Y * q.
Proof.
  unfold _ymd2ord, _days_before_month.
  rewrite days_before_year_period, is_leap_period. ring.
Qed.

Lemma days_in_month_period (y m q : Z) :
  _days_in_month (y + 400 * q) m = _days_in_month y m.
Proof. unfold _days_in_month. rewrite is_leap_period. reflexivity. Qed.

Lemma ord2ymd_period (n q : Z) :
  1 <= n <= _DI400Y ->
  _ord2ymd (n + _DI400Y * q)
  = let '(y, m, d) := _ord2ymd n in (y + 400 * q, m, d).
Proof.
  intros Hn. unfold _ord2ymd. cbv zeta.
  replace (n + _DI400Y * q - 1) with (n - 1 + q * _DI400Y) by ring.
  rewrite Z_div_plus_full, Z_mod_plus_full by (unfold _DI400Y; lia).
  rewrite (Z.div_small (n - 1) _DI400Y), (Z.mod_small (n - 1) _DI400Y)
    by lia.
  set (n100 := (n - 1) / _DI100Y).
  set (r100 := (n - 1) mod _DI100Y).
  set (n4 := r100 / _DI4Y).
  set (r4 := r100 mod _DI4Y).
  set (n1 := r4 / 365).
  set (r1 := r4 mod 365).
  destruct ((n1 =? 4) || (n100 =? 4)).
  - f_equal. f_equal. ring.
  - set (leapyear := (n1 =? 3) && (negb (n4 =? 24) || (n100 =? 3))).
    set (month := Z.shiftr (r1 + 50) 5).
    set (preceding := item _DAYS_BEFORE_MONTH month
                      + (if (2 <? month) && leapyear then 1 else 0)).
    destruct (r1 <? preceding); f_equal; f_equal; ring.
Qed.

(** [_ord2ymd] yields a date of the calendar, and [_ymd2ord] inverts it. *)
Lemma ord2ymd_ymd2ord (n : Z) :
  1 <= n <= _MAXORDINAL ->
  let '(y, m, d) := _ord2ymd n in
  _check_date_fields y m d = true /\ _ymd2ord y m d = n.
Proof.
  intros Hn.
  set (q := (n - 1) / _DI400Y).
  set (r := (n - 1) mod _DI400Y + 1).
  assert (Hr : 1 <= r <= _DI400Y).
  { unfold r. pose proof (Z.mod_pos_bound (n - 1) _DI400Y eq_refl). lia. }
  assert (En : n = r + _DI400Y * q).
  { unfold r, q. pose proof (Z.div_mod (n - 1) _DI400Y). lia. }
  rewrite En, (ord2ymd_period q Hr).
  pose proof (ord_ok_cycle Hr) as Hok. unfold ord_ok in Hok.
  destruct (_ord2ymd r) as [[y m] d].
  apply andb_true_iff in Hok. destruct Hok as [Hchk Hord].
  apply Z.eqb_eq in Hord.
  assert (Hord' : _ymd2ord (y + 400 * q) m d = r + _DI400Y * q).
  { rewrite ymd2ord_period. lia. }
  split; [|exact Hord'].
  unfold _check_date_fields in *.
  rewrite days_in_month_period.
  repeat (apply andb_true_iff in Hchk; destruct Hchk as [Hchk ?]).
  assert (Hq : 0 <= q).
  { unfold q. apply Z.div_pos; [lia | reflexivity]. }
  assert (Hy : y + 400 * q <= MAXYEAR).
  { (* a year past 9999 starts after the last ordinal *)
    destruct (Z_le_gt_dec (y + 400 * q) MAXYEAR) as [|Hgt]; [assumption|].
    exfalso. unfold MAXYEAR in Hgt.
    assert (Hm9 : 0 <= _days_before_month (y + 400 * q) m).
    { unfold _days_before_month.
      assert (0 <= item _DAYS_BEFORE_MONTH m).
      { apply Z.leb_le in H2, H1.
        assert (Hm : m = 1 \/ m = 2 \/ m = 3 \/ m = 4 \/ m = 5 \/ m = 6
                     \/ m = 7 \/ m = 8 \/ m = 9 \/ m = 10 \/ m = 11
                     \/ m = 12) by lia.
        repeat (destruct Hm as [-> | Hm]; [vm_compute; discriminate|]).
        subst m; vm_compute; discriminate. }
      destruct ((2 <? m) && _is_leap (y + 400 * q)); lia. }
    assert (Hd9 : 3652059 <= _days_before_year (y + 400 * q)).
    { unfold _days_before_year. cbv zeta.
      Z.div_mod_to_equations. lia. }
    apply Z.leb_le in H0.
    unfold _ymd2ord in Hord'. rewrite <- En in Hord'.
    unfold _MAXORDINAL in Hn. lia. }
  apply Z.leb_le in Hchk, H3, H2, H1, H0, H.
  unfold MINYEAR, MAXYEAR in *.
  repeat (apply andb_true_iff; split); apply Z.leb_le; lia.
Qed.

End Calendar.

(** ** Instants *)

Local Open Scope Z_scope.

Lemma check_time_fields_of_day (rest : Z) :
  0 <= rest < US_PER_DAY ->
  _check_time_fields (rest / US_PER_SECOND / 3600)
    (rest / US_PER_SECOND mod 3600 / 60)
    (rest / US_PER_SECOND mod 3600 mod 60) (rest mod US_PER_SECOND) = true
  /\ mk_timedelta 0 (rest / US_PER_SECOND / 3600)
       (rest / US_PER_SECOND mod 3600 / 60)
       (rest / US_PER_SECOND mod 3600 mod 60) (rest mod US_PER_SECOND)
     = rest.
Proof.
  unfold US_PER_DAY, mk_timedelta, US_PER_HOUR, US_PER_MINUTE, US_PER_DAY,
    US_PER_SECOND, _check_time_fields.
  intros H. split.
  - repeat (apply andb_true_iff; split); apply Z.leb_le;
      Z.div_mod_to_equations; lia.
  - Z.div_mod_to_equations; lia.
Qed.

Lemma time_fields_lt_day (hh mm ss us : Z) :
  _check_time_fields hh mm ss us = true ->
  0 <= mk_timedelta 0 hh mm ss us < US_PER_DAY.
Proof.
  unfold _check_time_fields, mk_timedelta, US_PER_HOUR, US_PER_MINUTE,
    US_PER_DAY, US_PER_SECOND.
  intros H. repeat (apply andb_true_iff in H; destruct H as [H ?]).
  apply Z.leb_le in H, H0, H1, H2, H3, H4, H5, H6. lia.
Qed.

(** [add] succeeds exactly when the day of the sum is an ordinal of the
    calendar, and then the sum is exact. *)
Lemma add_ok (self : datetime) (other : timedelta) :
  0 < (wall_us self + other) / US_PER_DAY <= _MAXORDINAL ->
  exists r, add self other = Ok r
            /\ wall_us r = wall_us self + other
            /\ tzinfo r = tzinfo self
            /\ _check_date_fields (year r) (month r) (day r) = true
            /\ _check_time_fields (hour r) (minute r) (second r)
                 (microsecond r) = true.
Proof.
  unfold add, wall_us.
  set (delta := mk_timedelta (toordinal self) (hour self) (minute self)
                  (second self) (microsecond self) + other).
  intros [E1 E2].
  rewrite (proj2 (Z.ltb_lt _ _) E1), (proj2 (Z.leb_le _ _) E2).
  cbn [andb].
  pose proof (@Calendar.ord2ymd_ymd2ord (delta / US_PER_DAY) ltac:(lia)) as O.
  destruct (_ord2ymd (delta / US_PER_DAY)) as [[y m] d].
  destruct O as [Hchk Hord].
  assert (Hrest : 0 <= delta mod US_PER_DAY < US_PER_DAY)
    by (apply Z.mod_pos_bound; reflexivity).
  destruct (check_time_fields_of_day Hrest) as [Ht Hsum].
  eexists. split; [reflexivity|].
  cbn [year month day hour minute second microsecond tzinfo toordinal].
  repeat split; try assumption.
  unfold toordinal. cbn [year month day]. rewrite Hord.
  pose proof (Z.div_mod delta US_PER_DAY ltac:(discriminate)) as D.
  revert Hsum D. generalize (delta mod US_PER_DAY / US_PER_SECOND / 3600).
  generalize (delta mod US_PER_DAY / US_PER_SECOND mod 3600 / 60).
  generalize (delta mod US_PER_DAY / US_PER_SECOND mod 3600 mod 60).
  generalize (delta mod US_PER_DAY mod US_PER_SECOND).
  generalize (delta mod US_PER_DAY). generalize (delta / US_PER_DAY).
  unfold mk_timedelta. intros. lia.
Qed.

Lemma add_overflow (self : datetime) (other : timedelta) :
  ~ 0 < (wall_us self + other) / US_PER_DAY <= _MAXORDINAL ->
  add self other = Raise OverflowError.
Proof.
  unfold add, wall_us.
  set (delta := mk_timedelta (toordinal self) (hour self) (minute self)
                  (second self) (microsecond self) + other).
  intros H.
  destruct (0 <? delta / US_PER_DAY) eqn:E1;
    destruct (delta / US_PER_DAY <=? _MAXORDINAL) eqn:E2;
    cbn [andb]; try reflexivity.
  apply Z.ltb_lt in E1. apply Z.leb_le in E2. tauto.
Qed.

Local Close Scope Z_scope.

(** ** The time normaliser *)

Local Open Scope Z_scope.

Ltac inv_bind H :=
  match type of H with
  | bind ?c _ = Ok _ =>
      let E := fresh "E" in
      destruct c eqn:E; cbn [bind] in H; [|discriminate H]
  | (if ?b then _ else Raise _) = Ok _ =>
      let E := fresh "E" in
      destruct b eqn:E; [|discriminate H]
  end.

Tactic Notation "inv_bind_as" hyp(H) "as" simple_intropattern(x) ident(E) :=
  match type of H with
  | bind ?c _ = Ok _ =>
      destruct c as [x|] eqn:E; cbn [bind] in H; [|discriminate H]
  end.

Lemma new_timezone_range (off : timedelta) (tz : timezone) :
  new_timezone off = Ok tz -> tz = off /\ - US_PER_DAY < off < US_PER_DAY.
Proof.
  unfold new_timezone. intros H. inv_bind H.
  apply andb_true_iff in E. destruct E as [E1 E2].
  apply Z.ltb_lt in E1, E2. injection H as <-. auto.
Qed.

Lemma parse_isoformat_time_tz (tstr : str) (comps : list Z) (off : timezone) :
  _parse_isoformat_time tstr = Ok (comps, Some off) ->
  - US_PER_DAY < off < US_PER_DAY.
Proof.
  unfold _parse_isoformat_time.
  destruct (List.length tstr <? 2)%nat; [discriminate|].
  cbv zeta.
  set (tz_pos := if find 45%N tstr + 1 =? 0 then find 43%N tstr + 1
                 else find 45%N tstr + 1).
  intros H. inv_bind H.
  destruct (0 <? tz_pos); [|discriminate].
  inv_bind H. inv_bind H.
  destruct (all_zero _).
  - injection H as _ <-. unfold utc, US_PER_DAY, US_PER_SECOND. lia.
  - inv_bind H. injection H as _ <-.
    match goal with
    | E : new_timezone _ = Ok _ |- _ =>
        apply new_timezone_range in E; destruct E as [-> E]; exact E
    end.
Qed.

Lemma new_datetime_valid (y m d hh mm ss us : Z) (tz : option timezone)
    (dt : datetime) :
  new_datetime y m d hh mm ss us tz = Ok dt ->
  dt = mk_datetime y m d hh mm ss us tz
  /\ _check_date_fields y m d = true
  /\ _check_time_fields hh mm ss us = true.
Proof.
  unfold new_datetime. intros H. inv_bind H.
  apply andb_true_iff in E. injection H as <-. tauto.
Qed.

(** Whatever [fromisoformat] returns passed the constructors' checks. *)
Lemma fromisoformat_valid (s : str) (dt : datetime) :
  fromisoformat s = Ok dt -> valid_datetime dt.
Proof.
  unfold fromisoformat. intros H.
  inv_bind_as H as date_components Ed. inv_bind_as H as [comps tzi] Et.
  apply new_datetime_valid in H. destruct H as (-> & Hd & Ht).
  split; [exact Hd|]. split; [exact Ht|]. cbn [tzinfo].
  destruct tzi as [off|]; [|exact I].
  destruct (is_empty (skipn 11 s)); [discriminate|].
  eapply parse_isoformat_time_tz; eassumption.
Qed.

Lemma only_ValueError_Ok {A : Type} (a : A) : only_ValueError (Ok a).
Proof. intros e H. discriminate H. Qed.

Lemma only_ValueError_Raise {A : Type} :
  only_ValueError (@Raise A ValueError).
Proof. intros e H. injection H as <-. reflexivity. Qed.

Lemma only_ValueError_bind {A B : Type} (c : result A) (k : A -> result B) :
  only_ValueError c -> (forall a, only_ValueError (k a)) ->
  only_ValueError (bind c k).
Proof.
  intros Hc Hk e. destruct c as [a|e']; cbn [bind].
  - apply Hk.
  - intros H. injection H as <-. apply Hc. reflexivity.
Qed.

Lemma only_ValueError_if {A : Type} (b : bool) (x y : result A) :
  only_ValueError x -> only_ValueError y ->
  only_ValueError (if b then x else y).
Proof. destruct b; auto. Qed.

Ltac only_value_error :=
  repeat first
    [ match goal with
      | H : forall _, only_ValueError _ |- _ => apply H
      | H : forall _ _, only_ValueError _ |- _ => apply H
      | H : forall _ _ _, only_ValueError _ |- _ => apply H
      end
    | apply only_ValueError_Ok
    | apply only_ValueError_Raise
    | apply only_ValueError_if
    | apply only_ValueError_bind
    | match goal with
      | |- forall _, _ => intro
      | |- only_ValueError (let '(_, _) := ?p in _) => destruct p
      end ].

Lemma int_digits_error (s : str) :
  forall acc, only_ValueError (int_digits s acc).
Proof.
  induction s as [|c s IH]; intros acc; cbn [int_digits].
  - apply only_ValueError_Ok.
  - apply only_ValueError_if; [apply IH | apply only_ValueError_Raise].
Qed.

Lemma parse_int_error (k : nat) (s : str) : only_ValueError (parse_int k s).
Proof.
  unfold parse_int.
  apply only_ValueError_if;
    [apply int_digits_error | apply only_ValueError_Raise].
Qed.

Lemma parse_isoformat_date_error (s : str) :
  only_ValueError (_parse_isoformat_date s).
Proof.
  unfold _parse_isoformat_date. pose proof parse_int_error.
  only_value_error.
Qed.

Lemma hh_mm_ss_loop_error (tstr : str) (todo : nat) :
  forall comp pos comps,
    only_ValueError (hh_mm_ss_loop todo comp tstr pos comps).
Proof.
  induction todo as [|todo IH]; intros comp pos comps; cbn [hh_mm_ss_loop].
  - apply only_ValueError_Ok.
  - pose proof parse_int_error. only_value_error.
Qed.

Lemma parse_hh_mm_ss_ff_error (tstr : str) :
  only_ValueError (_parse_hh_mm_ss_ff tstr).
Proof.
  unfold _parse_hh_mm_ss_ff.
  pose proof parse_int_error. pose proof (hh_mm_ss_loop_error tstr).
  only_value_error.
Qed.

Lemma new_timezone_error (off : timedelta) : only_ValueError (new_timezone off).
Proof. unfold new_timezone. only_value_error. Qed.

Lemma parse_isoformat_time_error (tstr : str) :
  only_ValueError (_parse_isoformat_time tstr).
Proof.
  unfold _parse_isoformat_time.
  pose proof parse_hh_mm_ss_ff_error. pose proof new_timezone_error.
  only_value_error.
Qed.

Lemma fromisoformat_error (s : str) : only_ValueError (fromisoformat s).
Proof.
  unfold fromisoformat, new_datetime.
  pose proof parse_isoformat_date_error.
  pose proof parse_isoformat_time_error.
  only_value_error.
Qed.

Lemma wall_us_replace_tzinfo (dt : datetime) (tz : option timezone) :
  wall_us (replace_tzinfo dt tz) = wall_us dt.
Proof. reflexivity. Qed.

Lemma utc_day_aware (dt : datetime) (off : timezone) :
  tzinfo dt = Some off -> utc_day dt = (wall_us dt + - off) / US_PER_DAY.
Proof.
  intros H. unfold utc_day, instant, offset_or_utc. rewrite H.
  rewrite <- Z.add_opp_r. reflexivity.
Qed.

Lemma instant_aware (dt : datetime) (off : timezone) :
  tzinfo dt = Some off -> instant dt = wall_us dt + - off.
Proof.
  intros H. unfold instant, offset_or_utc. rewrite H.
  rewrite <- Z.add_opp_r. reflexivity.
Qed.

Lemma utc_in_range : - US_PER_DAY < utc < US_PER_DAY.
Proof. unfold utc, US_PER_DAY, US_PER_SECOND. lia. Qed.

Lemma astimezone_aware (local : datetime -> timedelta) (dt : datetime)
    (off : timezone) :
  tzinfo dt = Some off ->
  astimezone local dt utc
  = if off =? utc then Ok dt
    else bind (sub dt off)
           (fun u => fromutc utc (replace_tzinfo u (Some utc))).
Proof. unfold astimezone. intros ->. reflexivity. Qed.

Lemma astimezone_utc_same (local : datetime -> timedelta) (dt : datetime) :
  tzinfo dt = Some utc -> astimezone local dt utc = Ok dt.
Proof. intros H. rewrite (astimezone_aware local dt H). reflexivity. Qed.

Lemma astimezone_utc_ok (local : datetime -> timedelta) (dt : datetime)
    (off : timezone) :
  tzinfo dt = Some off ->
  _check_date_fields (year dt) (month dt) (day dt) = true ->
  _check_time_fields (hour dt) (minute dt) (second dt) (microsecond dt)
  = true ->
  0 < utc_day dt <= _MAXORDINAL ->
  exists r, astimezone local dt utc = Ok r
            /\ tzinfo r = Some utc
            /\ valid_datetime r
            /\ instant r = instant dt.
Proof.
  intros Htz Hd Ht Hday.
  destruct (Z.eq_dec off utc) as [->|Hne].
  - exists dt. split; [apply astimezone_utc_same; exact Htz|].
    split; [exact Htz|]. split; [|reflexivity].
    unfold valid_datetime. rewrite Htz.
    split; [exact Hd|]. split; [exact Ht|]. exact utc_in_range.
  - rewrite (astimezone_aware local dt Htz).
    apply Z.eqb_neq in Hne. rewrite Hne.
    rewrite (utc_day_aware dt Htz) in Hday.
    destruct (add_ok dt (- off) Hday) as (u & Hu & Hw & Hutz & _).
    unfold sub. rewrite Hu. cbn [bind]. unfold fromutc.
    assert (Hday' : 0 < (wall_us (replace_tzinfo u (Some utc)) + utc)
                        / US_PER_DAY <= _MAXORDINAL).
    { rewrite wall_us_replace_tzinfo, Hw. unfold utc.
      rewrite Z.add_0_r. exact Hday. }
    destruct (add_ok _ _ Hday') as (r & Hr & Hrw & Hrtz & Hrd & Hrt).
    exists r. split; [exact Hr|].
    assert (Hrtz' : tzinfo r = Some utc) by (rewrite Hrtz; reflexivity).
    split; [exact Hrtz'|]. split.
    + unfold valid_datetime. rewrite Hrtz'.
      split; [exact Hrd|]. split; [exact Hrt|]. exact utc_in_range.
    + rewrite (instant_aware r Hrtz'), (instant_aware dt Htz), Hrw.
      rewrite wall_us_replace_tzinfo, Hw. unfold utc. ring.
Qed.

Lemma astimezone_utc_overflow (local : datetime -> timedelta) (dt : datetime)
    (off : timezone) :
  tzinfo dt = Some off ->
  off <> utc ->
  ~ 0 < utc_day dt <= _MAXORDINAL ->
  astimezone local dt utc = Raise OverflowError.
Proof.
  intros Htz Hne Hday.
  rewrite (astimezone_aware local dt Htz).
  apply Z.eqb_neq in Hne. rewrite Hne.
  rewrite (utc_day_aware dt Htz) in Hday.
  unfold sub. rewrite (add_overflow dt (- off) Hday). reflexivity.
Qed.

Local Close Scope Z_scope.

Local Open Scope Z_scope.

(** Every date of the calendar has an ordinal from 1 to [_MAXORDINAL]. *)
Lemma days_before_month_bound (y m : Z) :
  1 <= m <= 12 ->
  0 <= _days_before_month y m
  /\ _days_before_month y m + _days_in_month y m
     <= 365 + (if _is_leap y then 1 else 0).
Proof.
  intros Hm. unfold _days_before_month, _days_in_month.
  assert (Hc : m = 1 \/ m = 2 \/ m = 3 \/ m = 4 \/ m = 5 \/ m = 6
               \/ m = 7 \/ m = 8 \/ m = 9 \/ m = 10 \/ m = 11 \/ m = 12)
    by lia.
  destruct (_is_leap y);
    repeat (destruct Hc as [-> | Hc]; [vm_compute; split; discriminate|]);
    subst m; vm_compute; split; discriminate.
Qed.

Lemma days_before_year_next (y : Z) :
  _days_before_year y + 365 + (if _is_leap y then 1 else 0)
  = _days_before_year (y + 1).
Proof.
  unfold _days_before_year, _is_leap. cbv zeta.
  replace (y + 1 - 1) with y by ring.
  destruct (y mod 4 =? 0) eqn:E4; destruct (y mod 100 =? 0) eqn:E100;
    destruct (y mod 400 =? 0) eqn:E400; cbn [andb orb negb];
    rewrite ?Z.eqb_eq, ?Z.eqb_neq in *;
    Z.div_mod_to_equations; lia.
Qed.

Lemma toordinal_range (y m d : Z) :
  _check_date_fields y m d = true -> 1 <= _ymd2ord y m d <= _MAXORDINAL.
Proof.
  unfold _check_date_fields, MINYEAR, MAXYEAR. intros H.
  repeat (apply andb_true_iff in H; destruct H as [H ?]).
  apply Z.leb_le in H, H0, H1, H2, H3, H4.
  destruct (@days_before_month_bound y m ltac:(lia)) as [Hb1 Hb2].
  pose proof (days_before_year_next y) as Hn.
  assert (H0y : 0 <= _days_before_year y).
  { unfold _days_before_year. cbv zeta. Z.div_mod_to_equations. lia. }
  assert (Hmax : _days_before_year (y + 1) <= _MAXORDINAL).
  { unfold _days_before_year, _MAXORDINAL. cbv zeta.
    Z.div_mod_to_equations. lia. }
  unfold _ymd2ord. lia.
Qed.

Lemma wall_us_day (dt : datetime) :
  _check_time_fields (hour dt) (minute dt) (second dt) (microsecond dt)
  = true ->
  wall_us dt / US_PER_DAY = toordinal dt.
Proof.
  intros Ht. apply time_fields_lt_day in Ht.
  assert (E : wall_us dt
              = toordinal dt * US_PER_DAY
                + mk_timedelta 0 (hour dt) (minute dt) (second dt)
                    (microsecond dt))
    by (unfold wall_us, mk_timedelta; ring).
  rewrite E, Z.div_add_l by discriminate.
  rewrite Z.div_small by exact Ht. ring.
Qed.

Lemma utc_day_of_utc (dt : datetime) :
  valid_datetime dt -> offset_or_utc dt = utc ->
  0 < utc_day dt <= _MAXORDINAL.
Proof.
  intros (Hd & Ht & _) Hoff. unfold utc_day, instant.
  rewrite Hoff. unfold utc. rewrite Z.sub_0_r, (wall_us_day dt Ht).
  pose proof (toordinal_range _ _ _ Hd). unfold toordinal. lia.
Qed.

Lemma parse_iso_utc_eq (local : datetime -> timedelta) (iso : str) :
  parse_iso_utc local iso
  = bind (fromisoformat (z_replaced iso))
      (fun dt => astimezone local (assume_utc dt) utc).
Proof. reflexivity. Qed.

Lemma assume_utc_spec (dt : datetime) :
  valid_datetime dt ->
  exists off, tzinfo (assume_utc dt) = Some off
              /\ valid_datetime (assume_utc dt)
              /\ instant (assume_utc dt) = instant dt
              /\ offset_or_utc dt = off.
Proof.
  intros (Hd & Ht & Hz). unfold assume_utc.
  destruct (tzinfo dt) as [off|] eqn:E.
  - exists off. split; [exact E|]. split.
    + unfold valid_datetime. rewrite E. split; [exact Hd|].
      split; [exact Ht | exact Hz].
    + split; [reflexivity|]. unfold offset_or_utc. rewrite E. reflexivity.
  - exists utc. split; [reflexivity|]. split.
    + split; [exact Hd|]. split; [exact Ht | exact utc_in_range].
    + split; unfold instant, offset_or_utc; rewrite E; reflexivity.
Qed.

Lemma range_dec (x : Z) :
  {0 < x <= _MAXORDINAL} + {~ 0 < x <= _MAXORDINAL}.
Proof.
  destruct (Z_lt_dec 0 x); destruct (Z_le_dec x _MAXORDINAL);
    (left; lia) || (right; lia).
Qed.

(** What [astimezone(timezone.utc)] does to an aware, valid value. *)
Lemma astimezone_utc_cases (local : datetime -> timedelta) (dt : datetime)
    (off : timezone) :
  tzinfo dt = Some off -> valid_datetime dt ->
  (0 < utc_day dt <= _MAXORDINAL
   /\ exists r, astimezone local dt utc = Ok r
                /\ tzinfo r = Some utc /\ valid_datetime r
                /\ instant r = instant dt
                /\ (off = utc -> r = dt))
  \/ (~ 0 < utc_day dt <= _MAXORDINAL
      /\ astimezone local dt utc = Raise OverflowError).
Proof.
  intros Htz Hv. destruct (range_dec (utc_day dt)) as [Hin|Hout].
  - left. split; [exact Hin|]. destruct Hv as (Hd & Ht & _).
    destruct (astimezone_utc_ok local dt Htz Hd Ht Hin)
      as (r & Hr & Hrtz & Hrv & Hri).
    exists r. repeat split; try assumption; try apply Hrv.
    intros ->. rewrite (astimezone_utc_same local dt Htz) in Hr.
    injection Hr as <-. reflexivity.
  - right. split; [exact Hout|].
    apply (astimezone_utc_overflow local dt Htz); [|exact Hout].
    intros ->. apply Hout. apply utc_day_of_utc; [exact Hv|].
    unfold offset_or_utc. rewrite Htz. reflexivity.
Qed.

Lemma parse_iso_utc_local (local local' : datetime -> timedelta) (iso : str) :
  parse_iso_utc local iso = parse_iso_utc local' iso.
Proof.
  rewrite !parse_iso_utc_eq.
  destruct (fromisoformat (z_replaced iso)) as [dt|e] eqn:E; [|reflexivity].
  cbn [bind]. apply fromisoformat_valid in E.
  destruct (assume_utc_spec E) as (off & Htz & _).
  rewrite (astimezone_aware local _ Htz), (astimezone_aware local' _ Htz).
  reflexivity.
Qed.

Lemma parse_iso_utc_Ok (local : datetime -> timedelta) (iso : str)
    (r : datetime) :
  parse_iso_utc local iso = Ok r ->
  exists dt,
    fromisoformat (z_replaced iso) = Ok dt
    /\ (tzinfo dt = None -> r = replace_tzinfo dt (Some utc))
    /\ tzinfo r = Some utc
    /\ valid_datetime r
    /\ instant r = instant dt.
Proof.
  rewrite parse_iso_utc_eq. intros H.
  destruct (fromisoformat (z_replaced iso)) as [dt|e] eqn:E;
    [|discriminate H].
  cbn [bind] in H. exists dt. split; [reflexivity|].
  pose proof (fromisoformat_valid _ E) as Hv.
  destruct (assume_utc_spec Hv) as (off & Htz & Hv' & Hi & Hoff).
  destruct (astimezone_utc_cases local Htz Hv')
    as [(_ & r' & Hr & Hrtz & Hrv & Hri & Hsame) | (_ & Hr)];
    rewrite Hr in H; [|discriminate H].
  injection H as ->. repeat split; try assumption; try apply Hrv.
  - intros Hnone. unfold offset_or_utc in Hoff. rewrite Hnone in Hoff.
    rewrite (Hsame (eq_sym Hoff)). unfold assume_utc. rewrite Hnone.
    reflexivity.
  - rewrite Hri. exact Hi.
Qed.

(** C2: whenever [parse_iso_utc] returns, the text (after the replacement
    of ["Z"]) was read by [fromisoformat] as some [dt]; a [dt] without zone
    is taken as UTC with its fields unchanged, whatever the local zone of
    the system is; and in every case the result is a valid value in the
    zone UTC that denotes the instant of [dt].  In particular
    ["2025-09-22T15:30:00"] yields 2025-09-22 15:30:00 UTC. *)
Theorem parse_iso_utc_is_utc (local : datetime -> timedelta) (iso : str)
    (r : datetime) :
  parse_iso_utc local iso = Ok r ->
  (exists dt,
      fromisoformat (z_replaced iso) = Ok dt
      /\ (tzinfo dt = None -> r = replace_tzinfo dt (Some utc))
      /\ tzinfo r = Some utc
      /\ valid_datetime r
      /\ instant r = instant dt)
  /\ (forall local', parse_iso_utc local' iso = Ok r)
  /\ parse_iso_utc local (lit "2025-09-22T15:30:00")
     = Ok (mk_datetime 2025 9 22 15 30 0 0 (Some utc)).
Proof.
  intros H. split; [exact (parse_iso_utc_Ok local iso H)|]. split.
  - intros local'. rewrite (parse_iso_utc_local local' local). exact H.
  - rewrite (parse_iso_utc_local local (fun _ => 0)).
    vm_compute. reflexivity.
Qed.

Lemma parse_iso_utc_is_utc_witness :
  parse_iso_utc (fun _ => 7200000000) (lit "2025-09-22T15:30:00.250+02:30")
  = Ok (mk_datetime 2025 9 22 13 0 0 250000 (Some utc))
  /\ (exists dt,
         fromisoformat (z_replaced (lit "2025-09-22T15:30:00.250+02:30"))
         = Ok dt
         /\ (tzinfo dt = None ->
             mk_datetime 2025 9 22 13 0 0 250000 (Some utc)
             = replace_tzinfo dt (Some utc))
         /\ tzinfo (mk_datetime 2025 9 22 13 0 0 250000 (Some utc))
            = Some utc
         /\ valid_datetime (mk_datetime 2025 9 22 13 0 0 250000 (Some utc))
         /\ instant (mk_datetime 2025 9 22 13 0 0 250000 (Some utc))
            = instant dt).
Proof.
  assert (H : parse_iso_utc (fun _ => 7200000000)
                (lit "2025-09-22T15:30:00.250+02:30")
              = Ok (mk_datetime 2025 9 22 13 0 0 250000 (Some utc)))
    by (vm_compute; reflexivity).
  split; [exact H|].
  exact (proj1 (parse_iso_utc_is_utc _ _ H)).
Defined.

Local Close Scope Z_scope.

(** ** The create flow *)

Lemma is_empty_true (s : str) : is_empty s = true <-> s = [].
Proof. destruct s; simpl; split; congruence. Qed.

Lemma is_empty_false (s : str) : is_empty s = false <-> s <> [].
Proof. destruct s; simpl; split; congruence. Qed.

Section CreateProperties.
Variable entropy : nat -> nat.
Variable local : datetime -> timedelta.

Lemma create_eq (depth : nat) (now : datetime) (concurrent : list Event)
    (f : form) (w : world) :
  create entropy local depth now concurrent f w
  = if is_empty (submitted_title f) || is_empty (submitted_until f) then
      (Aborted 400 RequiredFields, w)
    else
      match parse_iso_utc local (submitted_until f) with
      | Raise e => (Aborted 400 (InvalidDateTime e), w)
      | Ok until_utc =>
          match ensure_unique_slug entropy depth (db w) 6 (rng w) with
          | (Raise e, c) => (Unhandled e, mk_world (db w) c)
          | (Ok slug, c) =>
              match add_commit now (commit_all (db w) concurrent) slug
                      (firstn 200 (submitted_title f)) until_utc with
              | Raise e =>
                  (Unhandled e, mk_world (commit_all (db w) concurrent) c)
              | Ok db2 =>
                  (Redirected 302 (url_for_event_page slug), mk_world db2 c)
              end
          end
      end.
Proof. reflexivity. Qed.

Lemma create_blank (depth : nat) (now : datetime) (concurrent : list Event)
    (f : form) (w : world) :
  submitted_title f = [] \/ submitted_until f = [] ->
  create entropy local depth now concurrent f w
  = (Aborted 400 RequiredFields, w).
Proof.
  intros H. rewrite create_eq.
  replace (is_empty (submitted_title f) || is_empty (submitted_until f))
    with true; [reflexivity|].
  symmetry. apply orb_true_iff.
  destruct H as [H|H]; [left|right]; apply is_empty_true; exact H.
Qed.

Lemma create_not_blank (f : form) :
  submitted_title f <> [] -> submitted_until f <> [] ->
  is_empty (submitted_title f) || is_empty (submitted_until f) = false.
Proof.
  intros H1 H2. apply orb_false_iff.
  split; apply is_empty_false; assumption.
Qed.

Lemma create_bad_time (depth : nat) (now : datetime)
    (concurrent : list Event) (f : form) (w : world) (e : exn) :
  submitted_title f <> [] -> submitted_until f <> [] ->
  parse_iso_utc local (submitted_until f) = Raise e ->
  create entropy local depth now concurrent f w
  = (Aborted 400 (InvalidDateTime e), w).
Proof.
  intros H1 H2 He. rewrite create_eq, (@create_not_blank f H1 H2), He.
  reflexivity.
Qed.

Lemma create_sequential (depth : nat) (now : datetime) (f : form) (w : world)
    (until_utc : datetime) :
  submitted_title f <> [] -> submitted_until f <> [] ->
  parse_iso_utc local (submitted_until f) = Ok until_utc ->
  depth_bound (db w) 6 <= depth ->
  exists s c',
    ensure_unique_slug entropy depth (db w) 6 (rng w) = (Ok s, c')
    /\ ~ In s (List.map slug (db w))
    /\ create entropy local depth now [] f w
       = (Redirected 302 (lit "/e/" ++ s),
          mk_world
            (db w ++ [mk_Event (next_id (db w)) s
                        (firstn 200 (submitted_title f)) until_utc now])
            c').
Proof.
  intros H1 H2 Hp Hd.
  destruct (@ensure_unique_slug_returns entropy (db w)
              (Z.to_nat (Z.of_nat (max_len (db w)) + 1 - 6)) 6%Z (rng w)
              (le_n _)) as (s & c' & Hret & Hfresh & _).
  specialize (Hret depth Hd).
  exists s, c'. split; [exact Hret|]. split; [exact Hfresh|].
  rewrite create_eq, (@create_not_blank f H1 H2), Hp, Hret.
  cbn [commit_all]. unfold add_commit.
  rewrite (proj2 (select_by_slug_None (db w) s) Hfresh). reflexivity.
Qed.

Lemma create_redirected (depth : nat) (now : datetime)
    (concurrent : list Event) (f : form) (w w' : world) (st : Z)
    (loc : str) :
  create entropy local depth now concurrent f w = (Redirected st loc, w') ->
  exists s c until_utc,
    parse_iso_utc local (submitted_until f) = Ok until_utc
    /\ ensure_unique_slug entropy depth (db w) 6 (rng w) = (Ok s, c)
    /\ st = 302%Z /\ loc = lit "/e/" ++ s
    /\ w' = mk_world
              (commit_all (db w) concurrent
               ++ [mk_Event (next_id (commit_all (db w) concurrent)) s
                     (firstn 200 (submitted_title f)) until_utc now])
              c.
Proof.
  rewrite create_eq.
  destruct (is_empty (submitted_title f) || is_empty (submitted_until f));
    [discriminate|].
  destruct (parse_iso_utc local (submitted_until f)) as [until_utc|e];
    [|discriminate].
  destruct (ensure_unique_slug entropy depth (db w) 6 (rng w))
    as [[s|e] c]; [|discriminate].
  unfold add_commit.
  destruct (select_by_slug (commit_all (db w) concurrent) s);
    [discriminate|].
  intros H. injection H as <- <- <-.
  exists s, c, until_utc. repeat split.
Qed.

End CreateProperties.

Lemma ensure_unique_slug_fresh_witness :
  NoDup (List.map slug [sample_row "aaaaaa"])
  /\ (Z.of_nat (List.length [sample_row "aaaaaa"]) < 36 ^ 6)%Z
  /\ exists s c',
       (forall depth, depth_bound [sample_row "aaaaaa"] 6 <= depth ->
          ensure_unique_slug (fun _ => 0) depth [sample_row "aaaaaa"] 6 0
          = (Ok s, c'))
       /\ select_by_slug [sample_row "aaaaaa"] s = None
       /\ ~ In s (List.map slug [sample_row "aaaaaa"]).
Proof.
  assert (H1 : NoDup (List.map slug [sample_row "aaaaaa"])).
  { constructor; [simpl; tauto | constructor]. }
  assert (H2 : (Z.of_nat (List.length [sample_row "aaaaaa"]) < 36 ^ 6)%Z).
  { vm_compute. reflexivity. }
  split; [exact H1|]. split; [exact H2|].
  exact (proj1 (@ensure_unique_slug_fresh (fun _ => 0)
                  [sample_row "aaaaaa"] 6%Z 0 H1 H2)).
Defined.

Local Open Scope Z_scope.

Lemma utc_day_assume_utc (dt : datetime) :
  utc_day (assume_utc dt) = utc_day dt.
Proof.
  unfold utc_day, assume_utc. destruct (tzinfo dt) eqn:E; [reflexivity|].
  unfold instant, offset_or_utc. rewrite E. reflexivity.
Qed.

Lemma parse_iso_utc_Raise (local : datetime -> timedelta) (iso : str)
    (e : exn) :
  parse_iso_utc local iso = Raise e <->
  (e = ValueError /\ is_ok (fromisoformat (z_replaced iso)) = false)
  \/ (e = OverflowError
      /\ exists dt, fromisoformat (z_replaced iso) = Ok dt
                    /\ ~ 0 < utc_day dt <= _MAXORDINAL).
Proof.
  rewrite parse_iso_utc_eq.
  destruct (fromisoformat (z_replaced iso)) as [dt|e0] eqn:E; cbn [bind].
  - pose proof (fromisoformat_valid _ E) as Hv.
    destruct (assume_utc_spec Hv) as (off & Htz & Hv' & _).
    destruct (astimezone_utc_cases local Htz Hv')
      as [(Hin & r & Hr & _) | (Hout & Hr)]; rewrite Hr;
      rewrite (utc_day_assume_utc dt) in *.
    + split; [discriminate|].
      intros [[_ H] | (_ & dt' & Hdt & Hout)]; [discriminate H|].
      injection Hdt as <-. contradiction.
    + split.
      * intros H. injection H as <-. right. split; [reflexivity|].
        exists dt. split; [reflexivity | exact Hout].
      * intros [[_ H] | (-> & _)]; [discriminate H | reflexivity].
  - pose proof (@fromisoformat_error (z_replaced iso) e0 E) as ->.
    split.
    + intros H. injection H as <-. left. split; reflexivity.
    + intros [[-> _] | (_ & dt & Hdt & _)]; [reflexivity | discriminate Hdt].
Qed.

Local Close Scope Z_scope.

(** C6, as stated, fails: a text that [fromisoformat] reads as a date-time
    can still make [parse_iso_utc] fail. *)
Lemma parse_iso_utc_fails_on_parsable_text :
  ~ (forall (local : datetime -> timedelta) (iso : str),
        is_ok (parse_iso_utc local iso) = false
        <-> is_ok (fromisoformat (z_replaced iso)) = false).
Proof.
  intros H.
  destruct (H (fun _ => 0%Z) (lit "0001-01-01T00:00:00+01:00")) as [H1 _].
  assert (E : is_ok (parse_iso_utc (fun _ => 0%Z)
                       (lit "0001-01-01T00:00:00+01:00")) = false)
    by (vm_compute; reflexivity).
  specialize (H1 E). vm_compute in H1. discriminate H1.
Qed.

(** C6, amended: [parse_iso_utc] fails exactly when [fromisoformat] rejects
    the text (after the replacement of ["Z"]), with [ValueError], as on
    ["not-a-date"], or when the text is read as a date-time whose instant
    falls on no day of the years 1 to 9999, with [OverflowError]; and
    [create] answers 400 to either failure on [until_iso], leaving the table
    as it was. *)
Theorem parse_iso_utc_failure
    (entropy : nat -> nat) (local : datetime -> timedelta) (iso : str)
    (e : exn) (depth : nat) (now : datetime) (concurrent : list Event)
    (f : form) (w : world) :
  (parse_iso_utc local iso = Raise e <->
   (e = ValueError /\ is_ok (fromisoformat (z_replaced iso)) = false)
   \/ (e = OverflowError
       /\ exists dt, fromisoformat (z_replaced iso) = Ok dt
                     /\ ~ (0 < utc_day dt <= _MAXORDINAL)%Z))
  /\ parse_iso_utc local (lit "not-a-date") = Raise ValueError
  /\ (submitted_title f <> [] -> submitted_until f <> [] ->
      parse_iso_utc local (submitted_until f) = Raise e ->
      create entropy local depth now concurrent f w
      = (Aborted 400%Z (InvalidDateTime e), w)
      /\ status_of (fst (create entropy local depth now concurrent f w))
         = 400%Z).
Proof.
  split; [apply parse_iso_utc_Raise|]. split.
  - rewrite (parse_iso_utc_local local (fun _ => 0%Z)). vm_compute. reflexivity.
  - intros H1 H2 He.
    rewrite (@create_bad_time entropy local depth now concurrent f w e
               H1 H2 He).
    split; reflexivity.
Qed.

Lemma parse_iso_utc_failure_witness :
  create (fun _ => 0) (fun _ => 0%Z) 1 sample_now []
    (sample_form (lit "Party") (lit "0001-01-01T00:00:00+01:00"))
    (mk_world [] 0)
  = (Aborted 400%Z (InvalidDateTime OverflowError), mk_world [] 0)
  /\ status_of
       (fst (create (fun _ => 0) (fun _ => 0%Z) 1 sample_now []
               (sample_form (lit "Party") (lit "0001-01-01T00:00:00+01:00"))
               (mk_world [] 0)))
     = 400%Z.
Proof.
  apply (proj2 (proj2 (@parse_iso_utc_failure (fun _ => 0) (fun _ => 0%Z)
                         (lit "not-a-date") OverflowError 1 sample_now []
                         (sample_form (lit "Party")
                            (lit "0001-01-01T00:00:00+01:00"))
                         (mk_world [] 0)))).
  - vm_compute. discriminate.
  - vm_compute. discriminate.
  - vm_compute. reflexivity.
Defined.


(** C7: [create] answers 400 and leaves the table as it was whenever the
    title or [until_iso] is blank after trimming; when both are non-blank
    and [until_iso] is read as [until_utc], a request that no other session
    interleaves with stores one new row under a slug that no row carried,
    and redirects to [/e/<slug>]. *)
Theorem create_validation
    (entropy : nat -> nat) (local : datetime -> timedelta) (depth : nat)
    (now : datetime) (concurrent : list Event) (f : form) (w : world)
    (until_utc : datetime) :
  (submitted_title f = [] \/ submitted_until f = [] ->
   create entropy local depth now concurrent f w
   = (Aborted 400%Z RequiredFields, w))
  /\ (submitted_title f <> [] -> submitted_until f <> [] ->
      parse_iso_utc local (submitted_until f) = Ok until_utc ->
      depth_bound (db w) 6 <= depth ->
      exists s c',
        ensure_unique_slug entropy depth (db w) 6 (rng w) = (Ok s, c')
        /\ ~ In s (List.map slug (db w))
        /\ create entropy local depth now [] f w
           = (Redirected 302%Z (lit "/e/" ++ s),
              mk_world
                (db w ++ [mk_Event (next_id (db w)) s
                            (firstn 200 (submitted_title f)) until_utc now])
                c')).
Proof.
  split.
  - apply create_blank.
  - apply create_sequential.
Qed.

Lemma create_validation_witness :
  create (fun _ => 0) (fun _ => 0%Z) 3 sample_now [sample_row "zzzzzz"]
    (sample_form (lit "   ") (lit "2025-09-22T15:30:00Z"))
    (mk_world [sample_row "aaaaaa"] 0)
  = (Aborted 400%Z RequiredFields, mk_world [sample_row "aaaaaa"] 0)
  /\ exists s c',
       ensure_unique_slug (fun _ => 0) 3 [sample_row "aaaaaa"] 6 0
       = (Ok s, c')
       /\ ~ In s (List.map slug [sample_row "aaaaaa"])
       /\ create (fun _ => 0) (fun _ => 0%Z) 3 sample_now []
            (sample_form (lit " Party ") (lit "2025-09-22T15:30:00Z"))
            (mk_world [sample_row "aaaaaa"] 0)
          = (Redirected 302%Z (lit "/e/" ++ s),
             mk_world
               ([sample_row "aaaaaa"]
                ++ [mk_Event (next_id [sample_row "aaaaaa"]) s
                      (firstn 200 (lit "Party"))
                      (mk_datetime 2025 9 22 15 30 0 0 (Some utc))
                      sample_now])
               c').
Proof.
  split.
  - apply (proj1 (@create_validation (fun _ => 0) (fun _ => 0%Z) 3 sample_now
                    [sample_row "zzzzzz"]
                    (sample_form (lit "   ") (lit "2025-09-22T15:30:00Z"))
                    (mk_world [sample_row "aaaaaa"] 0) sample_now)).
    left. vm_compute. reflexivity.
  - apply (proj2 (@create_validation (fun _ => 0) (fun _ => 0%Z) 3 sample_now
                    []
                    (sample_form (lit " Party ") (lit "2025-09-22T15:30:00Z"))
                    (mk_world [sample_row "aaaaaa"] 0)
                    (mk_datetime 2025 9 22 15 30 0 0 (Some utc)))).
    + vm_compute. discriminate.
    + vm_compute. discriminate.
    + vm_compute. reflexivity.
    + vm_compute. lia.
Defined.

(** C8: the row that a successful [create] stores carries the trimmed title
    cut to its first 200 characters: exactly 200 characters when the
    trimmed title is longer, the trimmed title itself otherwise. *)
Theorem create_stores_truncated_title
    (entropy : nat -> nat) (local : datetime -> timedelta) (depth : nat)
    (now : datetime) (concurrent : list Event) (f : form) (w w' : world)
    (st : Z) (loc : str) :
  create entropy local depth now concurrent f w = (Redirected st loc, w') ->
  exists ev,
    db w' = commit_all (db w) concurrent ++ [ev]
    /\ title ev = firstn 200 (submitted_title f)
    /\ (200 < List.length (submitted_title f) ->
        List.length (title ev) = 200)
    /\ (List.length (submitted_title f) <= 200 ->
        title ev = submitted_title f).
Proof.
  intros H. apply create_redirected in H.
  destruct H as (s & c & until_utc & _ & _ & _ & _ & ->).
  eexists. split; [reflexivity|]. cbn [title].
  split; [reflexivity|]. split.
  - intros Hlen. rewrite length_firstn. lia.
  - intros Hlen. apply firstn_all2. exact Hlen.
Qed.

Lemma create_stores_truncated_title_witness :
  exists st loc w',
    create (fun i => i) (fun _ => 0%Z) 1 sample_now []
      (sample_form long_title (lit "2025-09-22T15:30:00Z")) (mk_world [] 0)
    = (Redirected st loc, w')
    /\ exists ev,
         db w' = commit_all [] [] ++ [ev]
         /\ title ev
            = firstn 200
                (submitted_title
                   (sample_form long_title (lit "2025-09-22T15:30:00Z")))
         /\ (200 < List.length
                     (submitted_title
                        (sample_form long_title
                           (lit "2025-09-22T15:30:00Z"))) ->
             List.length (title ev) = 200)
         /\ (List.length
               (submitted_title
                  (sample_form long_title (lit "2025-09-22T15:30:00Z")))
             <= 200 ->
             title ev
             = submitted_title
                 (sample_form long_title (lit "2025-09-22T15:30:00Z"))).
Proof.
  eexists. eexists. eexists.
  refine (let H := _ in
          conj H (@create_stores_truncated_title (fun i => i)
                    (fun _ => 0%Z) 1 sample_now []
                    (sample_form long_title (lit "2025-09-22T15:30:00Z"))
                    (mk_world [] 0) _ _ _ H)).
  vm_compute. reflexivity.
Defined.

(** C4: a row committed by another session between the existence check and
    the commit, under the slug this request chose, makes the commit raise
    [IntegrityError]; [create] does not allocate another slug, the error
    reaches the client as a 500 and the event is not stored. *)
Theorem create_surfaces_uniqueness_violation :
  ensure_unique_slug (fun _ => 0) 1 [] 6 0 = (Ok (lit "aaaaaa"), 6)
  /\ create (fun _ => 0) (fun _ => 0%Z) 1 sample_now [sample_row "aaaaaa"]
       (sample_form (lit "Party") (lit "2025-09-22T15:30:00Z"))
       (mk_world [] 0)
     = (Unhandled IntegrityError, mk_world [sample_row "aaaaaa"] 6)
  /\ status_of
       (fst (create (fun _ => 0) (fun _ => 0%Z) 1 sample_now
               [sample_row "aaaaaa"]
               (sample_form (lit "Party") (lit "2025-09-22T15:30:00Z"))
               (mk_world [] 0)))
     = 500%Z.
Proof. vm_compute. repeat split. Qed.

(** ** Replacement of a one-character pattern *)

Lemma replace_char_absent (c : char) (new s : str) :
  ~ In c s -> replace (s ++ [c]) [c] new = s ++ new.
Proof.
  unfold replace. induction s as [|x s IH]; intros Hin.
  - cbn. rewrite (proj2 (char_eqb_eq c c) eq_refl). cbn.
    rewrite app_nil_r. reflexivity.
  - cbn [app replace_from startswith List.length pred].
    destruct (char_eqb c x) eqn:E.
    + apply char_eqb_eq in E. subst x. exfalso. apply Hin. left. reflexivity.
    + cbn [andb]. f_equal. apply IH. intros H. apply Hin. right. exact H.
Qed.

Lemma endswith_app (s p : str) : endswith (s ++ p) p = true.
Proof.
  unfold endswith. rewrite rev_app_distr.
  induction (rev p) as [|x l IH]; [cbn; destruct (rev s); reflexivity|].
  cbn. rewrite (proj2 (char_eqb_eq x x) eq_refl). exact IH.
Qed.

(** Where the input holds no other ["Z"], a final ["Z"] reads as the
    offset ["+00:00"]. *)
Lemma z_replaced_trailing (s : str) :
  ~ In 90%N s ->
  z_replaced (s ++ lit "Z") = s ++ lit "+00:00"
  /\ z_replaced (s ++ lit "+00:00") = s ++ lit "+00:00".
Proof.
  intros Hin. unfold z_replaced. split.
  - rewrite endswith_app.
    apply (@replace_char_absent 90%N (lit "+00:00") s Hin).
  - unfold endswith. rewrite rev_app_distr. reflexivity.
Qed.

Lemma parse_iso_utc_trailing_Z (local : datetime -> timedelta) (s : str) :
  ~ In 90%N s ->
  parse_iso_utc local (s ++ lit "Z") = parse_iso_utc local (s ++ lit "+00:00").
Proof.
  intros Hin. rewrite !parse_iso_utc_eq.
  destruct (@z_replaced_trailing s Hin) as [-> ->]. reflexivity.
Qed.

(** C5: the two spellings of the claim's example agree, but the
    replacement touches every ["Z"] of a text that ends in one: with ["Z"]
    as the separator between date and time, the spelling with the offset
    is read and the spelling with the final ["Z"] is rejected. *)
Theorem parse_iso_utc_replaces_every_Z (local : datetime -> timedelta) :
  parse_iso_utc local (lit "2025-09-22T15:30:00" ++ lit "Z")
  = Ok (mk_datetime 2025 9 22 15 30 0 0 (Some utc))
  /\ parse_iso_utc local (lit "2025-09-22T15:30:00" ++ lit "+00:00")
     = Ok (mk_datetime 2025 9 22 15 30 0 0 (Some utc))
  /\ parse_iso_utc local (lit "2025-09-22Z15:30:00" ++ lit "+00:00")
     = Ok (mk_datetime 2025 9 22 15 30 0 0 (Some utc))
  /\ z_replaced (lit "2025-09-22Z15:30:00" ++ lit "Z")
     = lit "2025-09-22+00:0015:30:00+00:00"
  /\ parse_iso_utc local (lit "2025-09-22Z15:30:00" ++ lit "Z")
     = Raise ValueError.
Proof.
  rewrite !(parse_iso_utc_local local (fun _ => 0%Z)).
  vm_compute. repeat split.
Qed.

(** ** Printing and parsing fields *)

Local Open Scope Z_scope.

Lemma digit_char_spec (v : Z) :
  is_digit (digit_char v) = true /\ digit_val (digit_char v) = v mod 10.
Proof.
  unfold is_digit, digit_val, digit_char.
  pose proof (Z.mod_pos_bound v 10 eq_refl) as B.
  split.
  - apply andb_true_iff. split; apply N.leb_le; lia.
  - rewrite Z2N.id by lia. ring.
Qed.

Lemma int_digits_app (a : str) (c : char) :
  forall acc,
    int_digits (a ++ [c]) acc
    = bind (int_digits a acc)
        (fun x => if is_digit c then Ok (x * 10 + digit_val c)
                  else Raise ValueError).
Proof.
  induction a as [|x a IH]; intros acc; cbn [app int_digits bind].
  - destruct (is_digit c); reflexivity.
  - destruct (is_digit x); [apply IH | reflexivity].
Qed.

Lemma fmt_d_int_digits (w : nat) :
  forall v acc,
    0 <= v < 10 ^ Z.of_nat w ->
    List.length (fmt_d w v) = w
    /\ Forall (fun c => is_digit c = true) (fmt_d w v)
    /\ int_digits (fmt_d w v) acc = Ok (acc * 10 ^ Z.of_nat w + v).
Proof.
  induction w as [|w IH]; intros v acc Hv.
  - cbn [fmt_d List.length int_digits]. split; [reflexivity|].
    split; [constructor|]. f_equal. simpl in Hv. lia.
  - rewrite Nat2Z.inj_succ, Z.pow_succ_r in * by lia.
    assert (Hq : 0 <= v / 10 < 10 ^ Z.of_nat w)
      by (split; [apply Z.div_pos; lia
                 | apply Z.div_lt_upper_bound; lia]).
    destruct (IH (v / 10) acc Hq) as (Hl & Hf & Hi).
    destruct (digit_char_spec v) as [Hd Hval].
    cbn [fmt_d]. split; [|split].
    + rewrite length_app, Hl. cbn. lia.
    + apply Forall_app. split; [exact Hf|]. constructor; [exact Hd|constructor].
    + rewrite int_digits_app, Hi. cbn [bind]. rewrite Hd, Hval. f_equal.
      pose proof (Z.div_mod v 10 ltac:(lia)). lia.
Qed.

Lemma fmt_d_digits (w : nat) (v : Z) :
  0 <= v < 10 ^ Z.of_nat w -> digits w v (fmt_d w v).
Proof.
  intros Hv. destruct (fmt_d_int_digits w 0 Hv) as (Hl & Hf & Hi).
  repeat split; assumption.
Qed.

Lemma digits_2 (v : Z) (l : str) :
  digits 2 v l ->
  exists a b, l = [a; b] /\ is_digit a = true /\ is_digit b = true
              /\ parse_int 2 [a; b] = Ok v.
Proof.
  intros (Hl & Hf & Hi).
  destruct l as [|a [|b [|? ?]]]; try discriminate Hl.
  exists a, b. inversion Hf as [|? ? Ha Hf']. inversion Hf' as [|? ? Hb _].
  repeat split; assumption.
Qed.

Lemma digits_4 (v : Z) (l : str) :
  digits 4 v l ->
  exists a b c d,
    l = [a; b; c; d] /\ is_digit a = true /\ is_digit b = true
    /\ is_digit c = true /\ is_digit d = true
    /\ parse_int 4 [a; b; c; d] = Ok v.
Proof.
  intros (Hl & Hf & Hi).
  destruct l as [|a [|b [|c [|d [|? ?]]]]]; try discriminate Hl.
  exists a, b, c, d.
  inversion Hf as [|? ? Ha Hf1]. inversion Hf1 as [|? ? Hb Hf2].
  inversion Hf2 as [|? ? Hc Hf3]. inversion Hf3 as [|? ? Hd _].
  repeat split; assumption.
Qed.

Lemma digits_6 (v : Z) (l : str) :
  digits 6 v l ->
  exists a b c d e f,
    l = [a; b; c; d; e; f] /\ is_digit a = true /\ is_digit b = true
    /\ is_digit c = true /\ is_digit d = true /\ is_digit e = true
    /\ is_digit f = true
    /\ parse_int 6 [a; b; c; d; e; f] = Ok v.
Proof.
  intros (Hl & Hf & Hi).
  destruct l as [|a [|b [|c [|d [|e [|f [|? ?]]]]]]]; try discriminate Hl.
  exists a, b, c, d, e, f.
  inversion Hf as [|? ? Ha Hf1]. inversion Hf1 as [|? ? Hb Hf2].
  inversion Hf2 as [|? ? Hc Hf3]. inversion Hf3 as [|? ? Hd Hf4].
  inversion Hf4 as [|? ? He Hf5]. inversion Hf5 as [|? ? Hg _].
  repeat split; assumption.
Qed.

(** A digit is none of the punctuation marks of the format. *)
Lemma digit_is_not (c a : char) :
  is_digit a = true -> is_digit c = false -> char_eqb c a = false.
Proof.
  intros Ha Hc. destruct (char_eqb c a) eqn:E; [|reflexivity].
  apply char_eqb_eq in E. subst c. congruence.
Qed.

Local Close Scope Z_scope.

(** ** Round trip through the serialisation *)

Lemma replace_from_skip_all (old new s : str) (k : nat) :
  (List.length s <= k)%nat -> replace_from old new k s = [].
Proof.
  revert k; induction s as [|x s IH]; intros k Hk; [reflexivity|].
  destruct k as [|k]; [simpl in Hk; lia|].
  cbn [replace_from]. apply IH. simpl in Hk. lia.
Qed.

Lemma startswith_refl (s : str) : startswith s s = true.
Proof.
  induction s as [|x s IH]; [reflexivity|].
  cbn [startswith]. rewrite (proj2 (char_eqb_eq x x) eq_refl). exact IH.
Qed.

(** A pattern whose first character occurs nowhere before the final
    occurrence of the pattern is replaced there, and only there. *)
Lemma replace_at_end (c : char) (old' new body : str) :
  ~ In c body ->
  replace (body ++ c :: old') (c :: old') new = body ++ new.
Proof.
  unfold replace. induction body as [|x body IH]; intros Hin.
  - cbn [app replace_from]. rewrite startswith_refl.
    cbn [List.length pred]. rewrite replace_from_skip_all by lia.
    rewrite app_nil_r. reflexivity.
  - cbn [app replace_from startswith].
    destruct (char_eqb c x) eqn:E.
    + apply char_eqb_eq in E. subst x. exfalso. apply Hin. left. reflexivity.
    + cbn [andb]. f_equal. apply IH. intros H. apply Hin. right. exact H.
Qed.

Lemma find_absent (c : char) (s : str) : ~ In c s -> find c s = (-1)%Z.
Proof.
  induction s as [|x s IH]; intros Hin; [reflexivity|].
  cbn [find]. destruct (char_eqb x c) eqn:E.
  - apply char_eqb_eq in E. exfalso. apply Hin. left. exact E.
  - rewrite IH; [reflexivity|]. intros H. apply Hin. right. exact H.
Qed.

Lemma find_first (c : char) (pre rest : str) :
  ~ In c pre -> find c (pre ++ c :: rest) = Z.of_nat (List.length pre).
Proof.
  induction pre as [|x pre IH]; intros Hin.
  - cbn [app find]. rewrite (proj2 (char_eqb_eq c c) eq_refl). reflexivity.
  - cbn [app find]. destruct (char_eqb x c) eqn:E.
    + apply char_eqb_eq in E. exfalso. apply Hin. left. exact E.
    + rewrite IH by (intros H; apply Hin; right; exact H).
      cbn zeta. destruct (Z.of_nat (List.length pre) <? 0)%Z eqn:L.
      * apply Z.ltb_lt in L. lia.
      * cbn [List.length]. lia.
Qed.

(** The time of day followed by the offset ["+00:00"]. *)
Lemma parse_isoformat_time_utc (T : str) (comps : list Z) :
  ~ In 45%N T -> ~ In 43%N T -> (2 <= List.length T)%nat ->
  _parse_hh_mm_ss_ff T = Ok comps ->
  _parse_isoformat_time (T ++ lit "+00:00") = Ok (comps, Some utc).
Proof.
  intros Hminus Hplus Hlen HT. unfold _parse_isoformat_time.
  replace (List.length (T ++ lit "+00:00") <? 2)%nat with false
    by (symmetry; apply Nat.ltb_ge; rewrite length_app; lia).
  assert (F45 : find 45%N (T ++ lit "+00:00") = (-1)%Z).
  { apply find_absent. intros H. apply in_app_or in H.
    destruct H as [H|H]; [contradiction|].
    cbn in H. intuition discriminate. }
  assert (F43 : find 43%N (T ++ lit "+00:00") = Z.of_nat (List.length T)).
  { apply (@find_first 43%N T (lit "00:00") Hplus). }
  rewrite F45, F43. cbv zeta.
  change (-1 + 1 =? 0)%Z with true. cbv iota.
  replace (0 <? Z.of_nat (List.length T) + 1)%Z with true
    by (symmetry; apply Z.ltb_lt; lia).
  replace (Z.to_nat (Z.of_nat (List.length T) + 1 - 1)) with (List.length T)
    by lia.
  replace (Z.to_nat (Z.of_nat (List.length T) + 1)) with (S (List.length T))
    by lia.
  rewrite firstn_app, Nat.sub_diag, firstn_all. cbn [firstn].
  rewrite app_nil_r, HT. cbn [bind].
  replace (skipn (S (List.length T)) (T ++ lit "+00:00")) with (lit "00:00").
  - reflexivity.
  - change (lit "+00:00") with ([43%N] ++ lit "00:00").
    rewrite app_assoc.
    replace (S (List.length T)) with (List.length (T ++ [43%N]))
      by (rewrite length_app; cbn; lia).
    rewrite skipn_app, Nat.sub_diag, skipn_all. reflexivity.
Qed.

Ltac not_in_digits :=
  let H := fresh "H" in
  cbn [In app]; intros H;
  repeat (destruct H as [H|H];
          [first [ discriminate H
                 | subst;
                   match goal with
                   | D : is_digit _ = true |- _ => discriminate D
                   end ]|]);
  exact H.

Lemma parse_hh_mm_ss (h1 h2 n1 n2 s1 s2 : char) (hh mm ss : Z) :
  parse_int 2 [h1; h2] = Ok hh ->
  parse_int 2 [n1; n2] = Ok mm ->
  parse_int 2 [s1; s2] = Ok ss ->
  _parse_hh_mm_ss_ff [h1; h2; 58%N; n1; n2; 58%N; s1; s2]
  = Ok [hh; mm; ss; 0%Z].
Proof.
  intros Hh Hm Hs. unfold _parse_hh_mm_ss_ff.
  cbn [hh_mm_ss_loop List.length Nat.sub Nat.ltb Nat.leb slice firstn skipn
       Nat.add].
  rewrite Hh. cbn [bind set_item is_empty orb Nat.leb].
  change (str_eqb [58%N] (lit ":")) with true. cbv iota.
  cbn [hh_mm_ss_loop List.length Nat.sub Nat.ltb Nat.leb slice firstn skipn
       Nat.add].
  rewrite Hm. cbn [bind set_item is_empty orb Nat.leb].
  change (str_eqb [58%N] (lit ":")) with true. cbv iota.
  cbn [hh_mm_ss_loop List.length Nat.sub Nat.ltb Nat.leb slice firstn skipn
       Nat.add].
  rewrite Hs. reflexivity.
Qed.

Lemma parse_hh_mm_ss_ff_digits
    (h1 h2 n1 n2 s1 s2 u1 u2 u3 u4 u5 u6 : char) (hh mm ss us : Z) :
  parse_int 2 [h1; h2] = Ok hh ->
  parse_int 2 [n1; n2] = Ok mm ->
  parse_int 2 [s1; s2] = Ok ss ->
  parse_int 6 [u1; u2; u3; u4; u5; u6] = Ok us ->
  _parse_hh_mm_ss_ff
    [h1; h2; 58%N; n1; n2; 58%N; s1; s2; 46%N; u1; u2; u3; u4; u5; u6]
  = Ok [hh; mm; ss; us].
Proof.
  intros Hh Hm Hs Hu. unfold _parse_hh_mm_ss_ff.
  cbn [hh_mm_ss_loop List.length Nat.sub Nat.ltb Nat.leb slice firstn skipn
       Nat.add].
  rewrite Hh. cbn [bind set_item is_empty orb Nat.leb].
  change (str_eqb [58%N] (lit ":")) with true. cbv iota.
  cbn [hh_mm_ss_loop List.length Nat.sub Nat.ltb Nat.leb slice firstn skipn
       Nat.add].
  rewrite Hm. cbn [bind set_item is_empty orb Nat.leb].
  change (str_eqb [58%N] (lit ":")) with true. cbv iota.
  cbn [hh_mm_ss_loop List.length Nat.sub Nat.ltb Nat.leb slice firstn skipn
       Nat.add].
  rewrite Hs. cbn [bind set_item is_empty orb Nat.leb].
  unfold char_is.
  cbn [List.length Nat.sub Nat.ltb Nat.leb slice firstn skipn Nat.eqb orb].
  change (str_eqb [46%N] (lit ".")) with true. cbv iota.
  rewrite Hu. reflexivity.
Qed.

Lemma days_in_month_le_31 (y m : Z) :
  (1 <= m <= 12)%Z -> (_days_in_month y m <= 31)%Z.
Proof.
  intros Hm. unfold _days_in_month.
  assert (Hc : (m = 1 \/ m = 2 \/ m = 3 \/ m = 4 \/ m = 5 \/ m = 6
                \/ m = 7 \/ m = 8 \/ m = 9 \/ m = 10 \/ m = 11
                \/ m = 12)%Z)
    by lia.
  destruct (_is_leap y);
    repeat (destruct Hc as [-> | Hc]; [vm_compute; discriminate|]);
    subst m; vm_compute; discriminate.
Qed.

(** [fromisoformat] on a date and a time of day written in digits,
    followed by the offset ["+00:00"]. *)
Lemma fromisoformat_utc_digits
    (y1 y2 y3 y4 m1 m2 d1 d2 : char) (T : str) (y m d : Z)
    (comps : list Z) :
  parse_int 4 [y1; y2; y3; y4] = Ok y ->
  parse_int 2 [m1; m2] = Ok m ->
  parse_int 2 [d1; d2] = Ok d ->
  ~ In 45%N T -> ~ In 43%N T -> (2 <= List.length T)%nat ->
  _parse_hh_mm_ss_ff T = Ok comps ->
  fromisoformat
    ([y1; y2; y3; y4; 45%N; m1; m2; 45%N; d1; d2; 84%N] ++ T ++ lit "+00:00")
  = new_datetime y m d (item comps 0) (item comps 1) (item comps 2)
      (item comps 3) (Some utc).
Proof.
  intros Hy Hm Hd Hminus Hplus Hlen HT. unfold fromisoformat.
  unfold _parse_isoformat_date, slice, char_is.
  cbn [app firstn skipn Nat.sub slice].
  rewrite Hy. cbn [bind].
  change (str_eqb [45%N] (lit "-")) with true. cbv iota.
  rewrite Hm. cbn [bind]. rewrite Hd. cbn [bind].
  replace (is_empty (T ++ lit "+00:00")) with false
    by (destruct T; [simpl in Hlen; lia | reflexivity]).
  rewrite (@parse_isoformat_time_utc T comps Hminus Hplus Hlen HT).
  reflexivity.
Qed.

Lemma format_offset_utc : _format_offset (Some utc) = lit "+00:00".
Proof. reflexivity. Qed.

(** The serialisation of a valid instant in the zone UTC: a text without
    ["+"] and without ["Z"], then ["+00:00"], which [fromisoformat] reads
    back. *)
Lemma isoformat_utc (d : datetime) :
  valid_datetime d -> tzinfo d = Some utc ->
  exists body,
    isoformat d = body ++ lit "+00:00"
    /\ ~ In 43%N body /\ ~ In 90%N body
    /\ fromisoformat (body ++ lit "+00:00") = Ok d.
Proof.
  destruct d as [y m dd hh mi ss us tz].
  intros (Hd & Ht & _) Htz. cbn [tzinfo] in Htz. subst tz.
  cbn [year month day hour minute second microsecond] in Hd, Ht.
  pose proof Hd as Hd'. pose proof Ht as Ht'.
  unfold _check_date_fields, MINYEAR, MAXYEAR in Hd'.
  repeat (apply andb_true_iff in Hd'; destruct Hd' as [Hd' ?]).
  unfold _check_time_fields in Ht'.
  repeat (apply andb_true_iff in Ht'; destruct Ht' as [Ht' ?]).
  repeat match goal with
         | H : (_ <=? _)%Z = true |- _ => apply Z.leb_le in H
         end.
  assert (Hdd : (dd <= 31)%Z)
    by (pose proof (@days_in_month_le_31 y m ltac:(lia)); lia).
  destruct (@digits_4 _ _ (@fmt_d_digits 4 y ltac:(simpl; lia)))
    as (y1 & y2 & y3 & y4 & Ey & Dy1 & Dy2 & Dy3 & Dy4 & Py).
  destruct (@digits_2 _ _ (@fmt_d_digits 2 m ltac:(simpl; lia)))
    as (m1 & m2 & Em & Dm1 & Dm2 & Pm).
  destruct (@digits_2 _ _ (@fmt_d_digits 2 dd ltac:(simpl; lia)))
    as (d1 & d2 & Ed & Dd1 & Dd2 & Pd).
  destruct (@digits_2 _ _ (@fmt_d_digits 2 hh ltac:(simpl; lia)))
    as (h1 & h2 & Eh & Dh1 & Dh2 & Ph).
  destruct (@digits_2 _ _ (@fmt_d_digits 2 mi ltac:(simpl; lia)))
    as (n1 & n2 & En & Dn1 & Dn2 & Pn).
  destruct (@digits_2 _ _ (@fmt_d_digits 2 ss ltac:(simpl; lia)))
    as (s1 & s2 & Es & Ds1 & Ds2 & Ps).
  destruct (@digits_6 _ _ (@fmt_d_digits 6 us ltac:(simpl; lia)))
    as (u1 & u2 & u3 & u4 & u5 & u6 & Eu
        & Du1 & Du2 & Du3 & Du4 & Du5 & Du6 & Pu).
  unfold isoformat, _format_time.
  cbn [year month day hour minute second microsecond tzinfo].
  rewrite format_offset_utc, Ey, Em, Ed, Eh, En, Es, Eu.
  destruct (us =? 0)%Z eqn:Eus.
  - apply Z.eqb_eq in Eus. subst us.
    exists ([y1; y2; y3; y4; 45; m1; m2; 45; d1; d2; 84]
            ++ [h1; h2; 58; n1; n2; 58; s1; s2])%N.
    split; [reflexivity|]. split; [not_in_digits|]. split; [not_in_digits|].
    rewrite <- app_assoc.
    rewrite (@fromisoformat_utc_digits y1 y2 y3 y4 m1 m2 d1 d2
               [h1; h2; 58; n1; n2; 58; s1; s2]%N y m dd [hh; mi; ss; 0%Z]
               Py Pm Pd ltac:(not_in_digits) ltac:(not_in_digits)
               ltac:(simpl; lia) (@parse_hh_mm_ss _ _ _ _ _ _ _ _ _ Ph Pn Ps)).
    change (new_datetime y m dd hh mi ss 0 (Some utc)
            = Ok (mk_datetime y m dd hh mi ss 0 (Some utc))).
    unfold new_datetime. rewrite Hd, Ht. reflexivity.
  - exists ([y1; y2; y3; y4; 45; m1; m2; 45; d1; d2; 84]
            ++ [h1; h2; 58; n1; n2; 58; s1; s2; 46; u1; u2; u3; u4; u5; u6])%N.
    split; [reflexivity|]. split; [not_in_digits|]. split; [not_in_digits|].
    rewrite <- app_assoc.
    rewrite (@fromisoformat_utc_digits y1 y2 y3 y4 m1 m2 d1 d2
               [h1; h2; 58; n1; n2; 58; s1; s2; 46;
                u1; u2; u3; u4; u5; u6]%N y m dd [hh; mi; ss; us]
               Py Pm Pd ltac:(not_in_digits) ltac:(not_in_digits)
               ltac:(simpl; lia)
               (@parse_hh_mm_ss_ff_digits _ _ _ _ _ _ _ _ _ _ _ _ _ _ _ _
                  Ph Pn Ps Pu)).
    change (new_datetime y m dd hh mi ss us (Some utc)
            = Ok (mk_datetime y m dd hh mi ss us (Some utc))).
    unfold new_datetime. rewrite Hd, Ht. reflexivity.
Qed.


(** C9: for every valid instant [d] in the zone UTC, [parse_iso_utc] on the
    serialisation of the view and time endpoints, [isoformat] with
    ["+00:00"] replaced by ["Z"], returns [d]; the conversion that
    [event_page] applies first leaves such a [d] as it is. *)
Theorem iso_z_round_trip (local : datetime -> timedelta) (d : datetime) :
  valid_datetime d -> tzinfo d = Some utc ->
  astimezone local d utc = Ok d
  /\ parse_iso_utc local (iso_z d) = Ok d.
Proof.
  intros Hv Htz. split; [apply astimezone_utc_same; exact Htz|].
  destruct (@isoformat_utc d Hv Htz) as (body & Eiso & Hplus & Hz & Hparse).
  assert (Ez : iso_z d = body ++ lit "Z").
  { unfold iso_z. rewrite Eiso.
    exact (@replace_at_end 43%N (lit "00:00") (lit "Z") body Hplus). }
  rewrite Ez, parse_iso_utc_eq.
  rewrite (proj1 (@z_replaced_trailing body Hz)), Hparse. cbn [bind].
  unfold assume_utc. rewrite Htz. apply astimezone_utc_same. exact Htz.
Qed.

Lemma iso_z_round_trip_witness :
  valid_datetime (mk_datetime 2025 9 22 15 30 0 120 (Some utc))
  /\ iso_z (mk_datetime 2025 9 22 15 30 0 120 (Some utc))
     = lit "2025-09-22T15:30:00.000120Z"
  /\ parse_iso_utc (fun _ => 0%Z)
       (iso_z (mk_datetime 2025 9 22 15 30 0 120 (Some utc)))
     = Ok (mk_datetime 2025 9 22 15 30 0 120 (Some utc)).
Proof.
  assert (Hv : valid_datetime (mk_datetime 2025 9 22 15 30 0 120 (Some utc))).
  { repeat split; vm_compute; congruence. }
  split; [exact Hv|]. split; [vm_compute; reflexivity|].
  exact (proj2 (@iso_z_round_trip (fun _ => 0%Z) _ Hv eq_refl)).
Defined.

(** * Further properties *)

(** ** The configuration helper *)

Lemma startswith_app (p s : str) : startswith (p ++ s) p = true.
Proof.
  induction p as [|x p IH]; [destruct s; reflexivity|].
  cbn [app startswith]. rewrite (proj2 (char_eqb_eq x x) eq_refl). exact IH.
Qed.

Lemma replace_first_prefix (old new rest : str) :
  replace_first (old ++ rest) old new = new ++ rest.
Proof.
  unfold replace_first. destruct old as [|x old]; [reflexivity|].
  change ((x :: old) ++ rest) with (x :: (old ++ rest)).
  cbn [replace_first_from].
  change (x :: old ++ rest) with ((x :: old) ++ rest).
  rewrite startswith_app.
  rewrite skipn_app, Nat.sub_diag, skipn_all. reflexivity.
Qed.

Lemma dict_has_set_other (d : dict) (k k' v : str) :
  dict_has (dict_set d k v) k' = dict_has d k' || str_eqb k k'.
Proof.
  induction d as [|[a b] d IH]; cbn [dict_set dict_has existsb fst].
  - rewrite orb_false_r. reflexivity.
  - destruct (str_eqb a k) eqn:E; cbn [dict_has existsb fst].
    + apply str_eqb_eq in E. subst a.
      destruct (str_eqb k k'); [reflexivity|]. cbn [orb].
      rewrite orb_false_r. reflexivity.
    + fold (dict_has (dict_set d k v) k'). rewrite IH.
      fold (dict_has d k'). rewrite orb_assoc. reflexivity.
Qed.

(** A key is in the [dict] made of a list of pairs exactly when one of the
    pairs carries it. *)
Lemma dict_has_of_pairs (pairs : list (str * str)) (k : str) :
  dict_has (dict_of_pairs pairs) k
  = existsb (fun kv => str_eqb (fst kv) k) pairs.
Proof.
  unfold dict_of_pairs.
  assert (G : forall d,
             dict_has (fold_left (fun d kv => dict_set d (fst kv) (snd kv))
                         pairs d) k
             = dict_has d k || existsb (fun kv => str_eqb (fst kv) k) pairs).
  { induction pairs as [|[a b] pairs IH]; intros d; cbn [fold_left existsb].
    - rewrite orb_false_r. reflexivity.
    - rewrite IH, dict_has_set_other. cbn [fst snd].
      rewrite orb_assoc. reflexivity. }
  rewrite G. reflexivity.
Qed.

(** Assigning to an absent key appends the item. *)
Lemma dict_set_absent (d : dict) (k v : str) :
  dict_has d k = false -> dict_set d k v = d ++ [(k, v)].
Proof.
  induction d as [|[a b] d IH]; cbn [dict_set dict_has existsb fst app];
    [reflexivity|].
  intros H. apply orb_false_iff in H. destruct H as [H1 H2].
  rewrite H1. f_equal. apply IH. exact H2.
Qed.

Section ConfigProperties.
Variable parsed : Type.
Variable urlparse : str -> result parsed.
Variable hostname : parsed -> option str.
Variable query : parsed -> str.
Variable parse_qsl : str -> list (str * str).
Variable urlencode : dict -> str.
Variable urlunparse_with_query : parsed -> str -> str.

Lemma normalize_db_url_eq (url : str) :
  normalize_db_url urlparse hostname query parse_qsl urlencode
    urlunparse_with_query url
  = if is_empty url then Ok (lit "sqlite:///events.db")
    else
      require_ssl urlparse hostname query parse_qsl urlencode
        urlunparse_with_query
        (if startswith url (lit "postgres://") then
           replace_first url (lit "postgres://")
             (lit "postgresql+psycopg://")
         else if startswith url (lit "postgresql://") then
           replace_first url (lit "postgresql://")
             (lit "postgresql+psycopg://")
         else url).
Proof. reflexivity. Qed.

(** X1: an empty URL gives the SQLite default; a URL that starts with
    [postgres://] or [postgresql://] has that leading scheme, and nothing
    after it, replaced by [postgresql+psycopg://] before the SSL step; any
    other URL reaches the SSL step as it is. *)
Theorem normalize_db_url_scheme (rest url : str) :
  normalize_db_url urlparse hostname query parse_qsl urlencode
    urlunparse_with_query []
  = Ok (lit "sqlite:///events.db")
  /\ normalize_db_url urlparse hostname query parse_qsl urlencode
       urlunparse_with_query (lit "postgres://" ++ rest)
     = require_ssl urlparse hostname query parse_qsl urlencode
         urlunparse_with_query (lit "postgresql+psycopg://" ++ rest)
  /\ normalize_db_url urlparse hostname query parse_qsl urlencode
       urlunparse_with_query (lit "postgresql://" ++ rest)
     = require_ssl urlparse hostname query parse_qsl urlencode
         urlunparse_with_query (lit "postgresql+psycopg://" ++ rest)
  /\ (url <> [] ->
      startswith url (lit "postgres://") = false ->
      startswith url (lit "postgresql://") = false ->
      normalize_db_url urlparse hostname query parse_qsl urlencode
        urlunparse_with_query url
      = require_ssl urlparse hostname query parse_qsl urlencode
          urlunparse_with_query url).
Proof.
  split; [reflexivity|]. split; [|split].
  - rewrite normalize_db_url_eq.
    change (is_empty (lit "postgres://" ++ rest)) with false. cbv iota.
    rewrite startswith_app, replace_first_prefix. reflexivity.
  - rewrite normalize_db_url_eq.
    change (is_empty (lit "postgresql://" ++ rest)) with false. cbv iota.
    replace (startswith (lit "postgresql://" ++ rest) (lit "postgres://"))
      with false by reflexivity.
    rewrite startswith_app, replace_first_prefix. reflexivity.
  - intros Hne H1 H2. rewrite normalize_db_url_eq, H1, H2.
    destruct url; [contradiction Hne; reflexivity | reflexivity].
Qed.

(** X2: for a host of Render whose query has no [sslmode], the new query
    encodes the items of the old one (a repeated key once, in the place of
    its first occurrence) followed by [sslmode=require]; with [sslmode]
    among the keys of the query, or another host, the URL is returned as
    it stands. *)
Theorem require_ssl_query (url : str) (p : parsed) :
  urlparse url = Ok p ->
  (endswith (or_empty (hostname p)) (lit ".render.com") = true ->
   existsb (fun kv => str_eqb (fst kv) (lit "sslmode"))
     (parse_qsl (query p)) = false ->
   require_ssl urlparse hostname query parse_qsl urlencode
     urlunparse_with_query url
   = Ok (urlunparse_with_query p
           (urlencode (dict_of_pairs (parse_qsl (query p))
                       ++ [(lit "sslmode", lit "require")]))))
  /\ (endswith (or_empty (hostname p)) (lit ".render.com") = false
      \/ existsb (fun kv => str_eqb (fst kv) (lit "sslmode"))
           (parse_qsl (query p)) = true ->
      require_ssl urlparse hostname query parse_qsl urlencode
        urlunparse_with_query url
      = Ok url).
Proof.
  intros Hp. unfold require_ssl. rewrite Hp. cbn [bind].
  rewrite dict_has_of_pairs. split.
  - intros Hh Hq. rewrite Hh, Hq. cbn [andb negb].
    rewrite dict_set_absent; [reflexivity|].
    rewrite dict_has_of_pairs. exact Hq.
  - intros [Hh | Hq].
    + rewrite Hh. reflexivity.
    + rewrite Hq. cbn [negb]. rewrite andb_false_r. reflexivity.
Qed.

End ConfigProperties.

Lemma require_ssl_query_witness :
  require_ssl (fun u => Ok u) (fun _ => Some (lit "db.render.com"))
    toy_query toy_parse_qsl toy_urlencode
    (fun p q => p ++ lit "?" ++ q) (lit "postgresql+psycopg://h/d?a=1")
  = Ok (lit "postgresql+psycopg://h/d?a=1?a=1&sslmode=require&").
Proof.
  apply (proj1 (@require_ssl_query str (fun u => Ok u)
                  (fun _ => Some (lit "db.render.com"))
                  toy_query toy_parse_qsl toy_urlencode
                  (fun p q => p ++ lit "?" ++ q)
                  (lit "postgresql+psycopg://h/d?a=1")
                  (lit "postgresql+psycopg://h/d?a=1") eq_refl)).
  - vm_compute. reflexivity.
  - vm_compute. reflexivity.
Defined.

(** ** More on the uniqueness loop *)

Section MoreSlugProperties.
Variable entropy : nat -> nat.

Lemma try_slugs_cursor (db : table) (n : Z) (k : nat) :
  forall c, c <= snd (try_slugs entropy k db n c).
Proof.
  induction k as [|k IH]; intros c; cbn [try_slugs]; [cbn; lia|].
  pose proof (gen_slug_spec entropy n c) as (_ & _ & Hc).
  destruct (gen_slug entropy n c) as [s c1]. cbn [snd] in Hc. subst c1.
  destruct (select_by_slug db s); [|cbn; lia].
  specialize (IH (c + Z.to_nat n)). lia.
Qed.

Lemma try_slugs_None (db : table) (n : Z) (k : nat) :
  forall c c',
    try_slugs entropy (S k) db n c = (None, c') ->
    exists s, In s (List.map slug db) /\ List.length s = Z.to_nat n.
Proof.
  intros c c'. cbn [try_slugs].
  pose proof (gen_slug_spec entropy n c) as (Hl & _ & _).
  destruct (gen_slug entropy n c) as [s c1]. cbn [fst] in Hl.
  destruct (select_by_slug db s) as [ev|] eqn:E; [|discriminate].
  intros _. apply select_by_slug_Some in E. destruct E as [Hin Hs].
  exists s. split; [|exact Hl]. rewrite <- Hs. apply in_map. exact Hin.
Qed.

Lemma ensure_unique_slug_Ok (db : table) (depth : nat) :
  forall (n : Z) (c c' : cursor) (s : str),
    ensure_unique_slug entropy depth db n c = (Ok s, c') ->
    ~ In s (List.map slug db)
    /\ Forall (fun x => In x ALPHABET) s
    /\ c <= c'
    /\ exists i, i < depth /\ List.length s = Z.to_nat (n + Z.of_nat i).
Proof.
  induction depth as [|depth IH]; intros n c c' s; [discriminate|].
  rewrite ensure_unique_slug_S.
  pose proof (try_slugs_cursor db n 10 c) as Hc.
  destruct (try_slugs entropy 10 db n c) as [[s1|] c1] eqn:T; cbn [snd] in Hc.
  - intros H. injection H as <- <-.
    apply try_slugs_Some in T. destruct T as (Hf & Hl & Ha).
    repeat split; try assumption.
    exists 0. split; [lia|]. rewrite Hl. f_equal. lia.
  - intros H. apply IH in H. destruct H as (Hf & Ha & Hle & i & Hi & Hl).
    repeat split; try assumption; [lia|].
    exists (S i). split; [lia|]. rewrite Hl. f_equal. lia.
Qed.

Lemma ensure_unique_slug_Raise (db : table) (depth : nat) :
  forall (n : Z) (c c' : cursor) (e : exn),
    ensure_unique_slug entropy depth db n c = (Raise e, c') ->
    e = RecursionError
    /\ forall i, i < depth ->
         exists s, In s (List.map slug db)
                   /\ List.length s = Z.to_nat (n + Z.of_nat i).
Proof.
  induction depth as [|depth IH]; intros n c c' e.
  - intros H. injection H as <- _. split; [reflexivity|]. intros i Hi. lia.
  - rewrite ensure_unique_slug_S.
    destruct (try_slugs entropy 10 db n c) as [[s1|] c1] eqn:T;
      [discriminate|].
    intros H. apply IH in H. destruct H as [He Hall].
    split; [exact He|]. intros [|i] Hi.
    + apply try_slugs_None in T. destruct T as (s & Hin & Hl).
      exists s. split; [exact Hin|]. rewrite Hl. f_equal. lia.
    + destruct (Hall i ltac:(lia)) as (s & Hin & Hl).
      exists s. split; [exact Hin|]. rewrite Hl. f_equal. lia.
Qed.

End MoreSlugProperties.

(** X3: whatever the table, the length and the nesting allowance, a slug
    that [ensure_unique_slug] returns is carried by no row, is written in
    the alphabet and has one of the lengths [n], ..., [n + depth - 1]; the
    only error is [RecursionError], and it needs a stored slug of each of
    these lengths. *)
Theorem ensure_unique_slug_outcome
    (entropy : nat -> nat) (depth : nat) (db : table) (n : Z) (c : cursor) :
  match ensure_unique_slug entropy depth db n c with
  | (Ok s, c') =>
      ~ In s (List.map slug db)
      /\ Forall (fun x => In x ALPHABET) s
      /\ c <= c'
      /\ exists i, i < depth /\ List.length s = Z.to_nat (n + Z.of_nat i)
  | (Raise e, _) =>
      e = RecursionError
      /\ forall i, i < depth ->
           exists s, In s (List.map slug db)
                     /\ List.length s = Z.to_nat (n + Z.of_nat i)
  end.
Proof.
  destruct (ensure_unique_slug entropy depth db n c) as [[s|e] c'] eqn:E.
  - exact (ensure_unique_slug_Ok entropy db depth n c E).
  - exact (ensure_unique_slug_Raise entropy db depth n c E).
Qed.

(** ** The table under [create] *)

Lemma add_commit_Ok (now : datetime) (db db' : table) (s t : str)
    (u : datetime) :
  add_commit now db s t u = Ok db' ->
  select_by_slug db s = None
  /\ db' = db ++ [mk_Event (next_id db) s t u now].
Proof.
  unfold add_commit. destruct (select_by_slug db s); [discriminate|].
  intros H. injection H as <-. split; reflexivity.
Qed.

Lemma add_commit_Raise (now : datetime) (db : table) (s t : str)
    (u : datetime) (e : exn) :
  add_commit now db s t u = Raise e ->
  e = IntegrityError /\ In s (List.map slug db).
Proof.
  unfold add_commit. destruct (select_by_slug db s) as [ev|] eqn:E;
    [|discriminate].
  intros H. injection H as <-. split; [reflexivity|].
  apply select_by_slug_Some in E. destruct E as [Hin <-].
  apply in_map. exact Hin.
Qed.

Lemma NoDup_slug_snoc (db : table) (ev : Event) :
  NoDup (List.map slug db) -> ~ In (slug ev) (List.map slug db) ->
  NoDup (List.map slug (db ++ [ev])).
Proof.
  intros Hn Hf. rewrite map_app. cbn [List.map].
  apply NoDup_app; [exact Hn | constructor; [simpl; tauto | constructor] |].
  intros x Hx [<- | []]. contradiction.
Qed.

Lemma add_commit_NoDup (now : datetime) (db db' : table) (s t : str)
    (u : datetime) :
  NoDup (List.map slug db) -> add_commit now db s t u = Ok db' ->
  NoDup (List.map slug db').
Proof.
  intros Hn H. apply add_commit_Ok in H. destruct H as [Hsel ->].
  apply NoDup_slug_snoc; [exact Hn|]. cbn [slug].
  apply select_by_slug_None. exact Hsel.
Qed.

Lemma commit_all_spec (rows : list Event) :
  forall db,
    (NoDup (List.map slug db) ->
     NoDup (List.map slug (commit_all db rows)))
    /\ exists added, commit_all db rows = db ++ added.
Proof.
  induction rows as [|ev rows IH]; intros db; cbn [commit_all].
  - split; [tauto|]. exists []. rewrite app_nil_r. reflexivity.
  - destruct (add_commit (created_at ev) db (slug ev) (title ev)
                (until_utc ev)) as [db1|e] eqn:E; [|apply IH].
    destruct (IH db1) as [Hn [added Ha]]. split.
    + intros H. apply Hn. eapply add_commit_NoDup; eassumption.
    + apply add_commit_Ok in E. destruct E as [_ ->].
      rewrite Ha, <- app_assoc. eexists. reflexivity.
Qed.

Section MoreCreateProperties.
Variable entropy : nat -> nat.
Variable local : datetime -> timedelta.

(** The outcomes of [create], with what each one leaves in the table. *)
Lemma create_cases (depth : nat) (now : datetime) (concurrent : list Event)
    (f : form) (w : world) :
  let r := create entropy local depth now concurrent f w in
  (exists m, fst r = Aborted 400 m /\ snd r = w)
  \/ (fst r = Unhandled RecursionError /\ db (snd r) = db w)
  \/ (fst r = Unhandled IntegrityError
      /\ db (snd r) = commit_all (db w) concurrent
      /\ exists ev, In ev concurrent)
  \/ (exists s c until_utc,
         submitted_title f <> []
         /\ parse_iso_utc local (submitted_until f) = Ok until_utc
         /\ ensure_unique_slug entropy depth (db w) 6 (rng w) = (Ok s, c)
         /\ select_by_slug (commit_all (db w) concurrent) s = None
         /\ r = (Redirected 302 (lit "/e/" ++ s),
                 mk_world
                   (commit_all (db w) concurrent
                    ++ [mk_Event (next_id (commit_all (db w) concurrent)) s
                          (firstn 200 (submitted_title f)) until_utc now])
                   c)).
Proof.
  cbv zeta. rewrite create_eq.
  destruct (is_empty (submitted_title f)) eqn:Et.
  { left. exists RequiredFields. split; reflexivity. }
  destruct (is_empty (submitted_until f)) eqn:Eu.
  { left. exists RequiredFields. split; reflexivity. }
  cbn [orb].
  destruct (parse_iso_utc local (submitted_until f)) as [until_utc|e] eqn:Ep.
  2:{ left. exists (InvalidDateTime e). split; reflexivity. }
  destruct (ensure_unique_slug entropy depth (db w) 6 (rng w))
    as [[s|e] c] eqn:Es.
  2:{ right. left. apply ensure_unique_slug_Raise in Es.
      destruct Es as [-> _]. split; reflexivity. }
  destruct (add_commit now (commit_all (db w) concurrent) s
              (firstn 200 (submitted_title f)) until_utc) as [db2|e] eqn:Ea.
  - right. right. right. apply add_commit_Ok in Ea. destruct Ea as [Hsel ->].
    exists s, c, until_utc. apply is_empty_false in Et.
    repeat split; assumption.
  - right. right. left. apply add_commit_Raise in Ea.
    destruct Ea as [-> Hin]. split; [reflexivity|]. split; [reflexivity|].
    destruct concurrent as [|ev rest]; [|exists ev; left; reflexivity].
    exfalso. cbn [commit_all] in Hin.
    apply ensure_unique_slug_Ok in Es. tauto.
Qed.

End MoreCreateProperties.

(** X4: [create] keeps the slugs of the table distinct, whatever it
    answers and whatever other sessions commit meanwhile. *)
Theorem create_keeps_slugs_unique
    (entropy : nat -> nat) (local : datetime -> timedelta) (depth : nat)
    (now : datetime) (concurrent : list Event) (f : form) (w : world) :
  NoDup (List.map slug (db w)) ->
  NoDup (List.map slug
           (db (snd (create entropy local depth now concurrent f w)))).
Proof.
  intros Hn.
  pose proof (proj1 (commit_all_spec concurrent (db w)) Hn) as Hc.
  destruct (create_cases entropy local depth now concurrent f w)
    as [(m & _ & ->) | [(_ & ->) | [(_ & -> & _)
       | (s & c & u & _ & _ & _ & Hsel & ->)]]]; try assumption.
  cbn [snd db]. apply NoDup_slug_snoc; [exact Hc|]. cbn [slug].
  apply select_by_slug_None. exact Hsel.
Qed.

Lemma create_keeps_slugs_unique_witness :
  NoDup (List.map slug
           (db (snd (create (fun _ => 0) (fun _ => 0%Z) 3 sample_now
                       [sample_row "aaaaaa"]
                       (sample_form (lit "Party")
                          (lit "2025-09-22T15:30:00Z"))
                       (mk_world [sample_row "zzzzzz"] 0))))).
Proof.
  apply (@create_keeps_slugs_unique (fun _ => 0) (fun _ => 0%Z) 3 sample_now
           [sample_row "aaaaaa"]
           (sample_form (lit "Party") (lit "2025-09-22T15:30:00Z"))
           (mk_world [sample_row "zzzzzz"] 0)).
  constructor; [simpl; tauto | constructor].
Defined.


(** X6: a request that no other session interleaves with, given the
    nesting [depth_bound] of the table, never ends in a server error: it
    is answered 400 or 302. *)
Theorem create_sequential_status
    (entropy : nat -> nat) (local : datetime -> timedelta) (depth : nat)
    (now : datetime) (f : form) (w : world) :
  depth_bound (db w) 6 <= depth ->
  status_of (fst (create entropy local depth now [] f w)) = 400%Z
  \/ status_of (fst (create entropy local depth now [] f w)) = 302%Z.
Proof.
  intros Hd.
  destruct (create_cases entropy local depth now [] f w)
    as [(m & -> & _) | [(He & _) | [(_ & _ & ev & [])
       | (s & c & u & _ & _ & _ & _ & ->)]]].
  - left. reflexivity.
  - exfalso.
    destruct (@ensure_unique_slug_returns entropy (db w)
                (Z.to_nat (Z.of_nat (max_len (db w)) + 1 - 6)) 6%Z (rng w)
                (le_n _)) as (s & c' & Hret & _).
    specialize (Hret depth Hd). revert He. rewrite create_eq.
    destruct (is_empty (submitted_title f) || is_empty (submitted_until f));
      [discriminate|].
    destruct (parse_iso_utc local (submitted_until f)); [|discriminate].
    rewrite Hret. cbn [commit_all]. unfold add_commit.
    destruct (select_by_slug (db w) s); discriminate.
  - right. reflexivity.
Qed.

Lemma create_sequential_status_witness :
  depth_bound [sample_row "aaaaaa"] 6 <= 3
  /\ (status_of
        (fst (create (fun _ => 0) (fun _ => 0%Z) 3 sample_now []
                (sample_form (lit "Party") (lit "2025-09-22T15:30:00Z"))
                (mk_world [sample_row "aaaaaa"] 0))) = 400%Z
      \/ status_of
           (fst (create (fun _ => 0) (fun _ => 0%Z) 3 sample_now []
                   (sample_form (lit "Party") (lit "2025-09-22T15:30:00Z"))
                   (mk_world [sample_row "aaaaaa"] 0))) = 302%Z).
Proof.
  assert (H : depth_bound [sample_row "aaaaaa"] 6 <= 3)
    by (vm_compute; lia).
  split; [exact H|].
  exact (@create_sequential_status (fun _ => 0) (fun _ => 0%Z) 3 sample_now
           (sample_form (lit "Party") (lit "2025-09-22T15:30:00Z"))
           (mk_world [sample_row "aaaaaa"] 0) H).
Defined.

(** ** The stored row and the view *)


Lemma iso_z_parses (local : datetime -> timedelta) (d : datetime) :
  valid_datetime d -> tzinfo d = Some utc ->
  parse_iso_utc local (iso_z d) = Ok d.
Proof.
  intros Hv Htz.
  destruct (@isoformat_utc d Hv Htz) as (body & Eiso & Hplus & Hz & Hparse).
  assert (Ez : iso_z d = body ++ lit "Z").
  { unfold iso_z. rewrite Eiso.
    exact (@replace_at_end 43%N (lit "00:00") (lit "Z") body Hplus). }
  rewrite Ez, parse_iso_utc_eq.
  rewrite (proj1 (@z_replaced_trailing body Hz)), Hparse. cbn [bind].
  unfold assume_utc. rewrite Htz. apply astimezone_utc_same. exact Htz.
Qed.





(** X9: [event_page] answers 404 exactly when no row carries the slug. *)
Theorem event_page_not_found
    (local : datetime -> timedelta) (now : datetime) (w : world) (s : str) :
  event_page local now w s = Aborted 404 NotFound
  <-> ~ In s (List.map slug (db w)).
Proof.
  rewrite <- select_by_slug_None. unfold event_page.
  destruct (select_by_slug (db w) s) as [ev|]; [|tauto].
  split; [|discriminate].
  destruct (astimezone local (until_utc ev) utc); discriminate.
Qed.

(** ** A naive deadline in the view *)

Local Open Scope Z_scope.




Local Close Scope Z_scope.

(** ** The shape of the serialisation *)

Lemma fmt_d_length (w : nat) : forall v, List.length (fmt_d w v) = w.
Proof.
  induction w as [|w IH]; intros v; cbn [fmt_d]; [reflexivity|].
  rewrite length_app, IH. cbn. lia.
Qed.

Lemma isoformat_split (d : datetime) :
  isoformat d
  = isoformat (replace_tzinfo d None) ++ _format_offset (tzinfo d).
Proof.
  unfold isoformat.
  cbn [year month day hour minute second microsecond tzinfo replace_tzinfo
       _format_offset].
  rewrite app_nil_r, <- !app_assoc. reflexivity.
Qed.

Lemma isoformat_naive_length (d : datetime) :
  List.length (isoformat (replace_tzinfo d None))
  = if (microsecond d =? 0)%Z then 19 else 26.
Proof.
  unfold isoformat, _format_time.
  cbn [year month day hour minute second microsecond tzinfo replace_tzinfo
       _format_offset].
  destruct (microsecond d =? 0)%Z;
    rewrite ?length_app, ?fmt_d_length; reflexivity.
Qed.

(** X11: a valid instant in the zone UTC is serialised as its ISO text
    without offset followed by ["Z"]: 20 characters, or 27 with the six
    digits of a non-zero microsecond, and no ["+"] among them. *)
Theorem iso_z_shape (d : datetime) :
  valid_datetime d -> tzinfo d = Some utc ->
  iso_z d = isoformat (replace_tzinfo d None) ++ lit "Z"
  /\ ~ In 43%N (iso_z d)
  /\ List.length (iso_z d) = if (microsecond d =? 0)%Z then 20 else 27.
Proof.
  intros Hv Htz.
  destruct (@isoformat_utc d Hv Htz) as (body & Eiso & Hplus & _ & _).
  assert (Eb : isoformat (replace_tzinfo d None) = body).
  { pose proof (isoformat_split d) as E. rewrite Htz, Eiso in E.
    change (_format_offset (Some utc)) with (lit "+00:00") in E.
    apply app_inv_tail in E. symmetry. exact E. }
  assert (Ez : iso_z d = body ++ lit "Z").
  { unfold iso_z. rewrite Eiso.
    exact (@replace_at_end 43%N (lit "00:00") (lit "Z") body Hplus). }
  rewrite Ez, Eb. split; [reflexivity|]. split.
  - intros H. apply in_app_or in H. destruct H as [H|H]; [contradiction|].
    cbn in H. destruct H as [H|[]]. discriminate H.
  - rewrite length_app, <- Eb, isoformat_naive_length.
    destruct (microsecond d =? 0)%Z; reflexivity.
Qed.

Lemma iso_z_shape_witness :
  valid_datetime sample_now
  /\ iso_z sample_now = isoformat (replace_tzinfo sample_now None) ++ lit "Z"
  /\ ~ In 43%N (iso_z sample_now)
  /\ List.length (iso_z sample_now)
     = if (microsecond sample_now =? 0)%Z then 20 else 27.
Proof.
  assert (Hv : valid_datetime sample_now).
  { repeat split; vm_compute; congruence. }
  split; [exact Hv|]. exact (@iso_z_shape sample_now Hv eq_refl).
Defined.

(** X12: what [parse_iso_utc] returns is a fixed point of serialising and
    parsing again: the text a page shows for a parsed instant is read back
    as the same instant. *)
Theorem parse_iso_utc_stable (local : datetime -> timedelta) (iso : str)
    (r : datetime) :
  parse_iso_utc local iso = Ok r ->
  parse_iso_utc local (iso_z r) = Ok r.
Proof.
  intros H. apply parse_iso_utc_Ok in H.
  destruct H as (dt & _ & _ & Htz & Hv & _).
  apply iso_z_parses; assumption.
Qed.

Lemma parse_iso_utc_stable_witness :
  parse_iso_utc (fun _ => 0%Z) (lit "2025-09-22T15:30:00.250+02:30")
  = Ok (mk_datetime 2025 9 22 13 0 0 250000 (Some utc))
  /\ parse_iso_utc (fun _ => 0%Z)
       (iso_z (mk_datetime 2025 9 22 13 0 0 250000 (Some utc)))
     = Ok (mk_datetime 2025 9 22 13 0 0 250000 (Some utc)).
Proof.
  assert (H : parse_iso_utc (fun _ => 0%Z)
                (lit "2025-09-22T15:30:00.250+02:30")
              = Ok (mk_datetime 2025 9 22 13 0 0 250000 (Some utc)))
    by (vm_compute; reflexivity).
  split; [exact H|].
  exact (@parse_iso_utc_stable (fun _ => 0%Z) _ _ H).
Defined.

(** ** Texts without seconds or offset *)

Lemma parse_hh_mm (h1 h2 n1 n2 : char) (hh mm : Z) :
  parse_int 2 [h1; h2] = Ok hh ->
  parse_int 2 [n1; n2] = Ok mm ->
  _parse_hh_mm_ss_ff [h1; h2; 58%N; n1; n2] = Ok [hh; mm; 0%Z; 0%Z].
Proof.
  intros Hh Hm. unfold _parse_hh_mm_ss_ff.
  cbn [hh_mm_ss_loop List.length Nat.sub Nat.ltb Nat.leb slice firstn skipn
       Nat.add].
  rewrite Hh. cbn [bind set_item is_empty orb Nat.leb].
  change (str_eqb [58%N] (lit ":")) with true. cbv iota.
  cbn [hh_mm_ss_loop List.length Nat.sub Nat.ltb Nat.leb slice firstn skipn
       Nat.add].
  rewrite Hm. reflexivity.
Qed.

(** The time of day without an offset. *)
Lemma parse_isoformat_time_naive (T : str) (comps : list Z) :
  ~ In 45%N T -> ~ In 43%N T -> (2 <= List.length T)%nat ->
  _parse_hh_mm_ss_ff T = Ok comps ->
  _parse_isoformat_time T = Ok (comps, None).
Proof.
  intros Hminus Hplus Hlen HT. unfold _parse_isoformat_time.
  replace (List.length T <? 2)%nat with false
    by (symmetry; apply Nat.ltb_ge; lia).
  rewrite (@find_absent 45%N T Hminus), (@find_absent 43%N T Hplus).
  cbv zeta.
  change (-1 + 1 =? 0)%Z with true. cbv iota.
  change (0 <? -1 + 1)%Z with false. cbv iota.
  rewrite HT. reflexivity.
Qed.

Lemma parse_iso_utc_naive_text (local : datetime -> timedelta) (s : str)
    (x : char) (dt : datetime) :
  x <> 90%N -> fromisoformat (s ++ [x]) = Ok dt -> tzinfo dt = None ->
  parse_iso_utc local (s ++ [x]) = Ok (replace_tzinfo dt (Some utc)).
Proof.
  intros Hx Hp Htz. rewrite parse_iso_utc_eq. unfold z_replaced.
  replace (endswith (s ++ [x]) (lit "Z")) with false.
  - rewrite Hp. cbn [bind]. unfold assume_utc. rewrite Htz.
    apply astimezone_utc_same. reflexivity.
  - unfold endswith. rewrite rev_app_distr.
    change (rev (lit "Z")) with [90%N]. cbn [rev app startswith].
    destruct (char_eqb 90%N x) eqn:E; [|reflexivity].
    apply char_eqb_eq in E. congruence.
Qed.

(** X13: a date of the calendar alone is read as its midnight in UTC, and
    a date, any one separator character, hours and minutes (the text of an
    HTML [datetime-local] field) as that minute in UTC, seconds zero. *)
Theorem parse_iso_utc_short_forms (local : datetime -> timedelta)
    (y m d hh mm : Z) (sep : char) :
  _check_date_fields y m d = true ->
  (0 <= hh <= 23)%Z -> (0 <= mm <= 59)%Z ->
  parse_iso_utc local (fmt_d 4 y ++ lit "-" ++ fmt_d 2 m ++ lit "-"
                       ++ fmt_d 2 d)
  = Ok (mk_datetime y m d 0 0 0 0 (Some utc))
  /\ parse_iso_utc local (fmt_d 4 y ++ lit "-" ++ fmt_d 2 m ++ lit "-"
                          ++ fmt_d 2 d ++ [sep] ++ fmt_d 2 hh ++ lit ":"
                          ++ fmt_d 2 mm)
     = Ok (mk_datetime y m d hh mm 0 0 (Some utc)).
Proof.
  intros Hd Hhh Hmm. pose proof Hd as Hd'.
  unfold _check_date_fields, MINYEAR, MAXYEAR in Hd'.
  repeat (apply andb_true_iff in Hd'; destruct Hd' as [Hd' ?]).
  repeat match goal with
         | H : (_ <=? _)%Z = true |- _ => apply Z.leb_le in H
         end.
  assert (Hdd : (d <= 31)%Z)
    by (pose proof (@days_in_month_le_31 y m ltac:(lia)); lia).
  destruct (@digits_4 _ _ (@fmt_d_digits 4 y ltac:(simpl; lia)))
    as (y1 & y2 & y3 & y4 & Ey & Dy1 & Dy2 & Dy3 & Dy4 & Py).
  destruct (@digits_2 _ _ (@fmt_d_digits 2 m ltac:(simpl; lia)))
    as (m1 & m2 & Em & Dm1 & Dm2 & Pm).
  destruct (@digits_2 _ _ (@fmt_d_digits 2 d ltac:(simpl; lia)))
    as (d1 & d2 & Ed & Dd1 & Dd2 & Pd).
  destruct (@digits_2 _ _ (@fmt_d_digits 2 hh ltac:(simpl; lia)))
    as (h1 & h2 & Eh & Dh1 & Dh2 & Ph).
  destruct (@digits_2 _ _ (@fmt_d_digits 2 mm ltac:(simpl; lia)))
    as (n1 & n2 & En & Dn1 & Dn2 & Pn).
  rewrite Ey, Em, Ed, Eh, En.
  assert (Ht : _check_time_fields hh mm 0 0 = true).
  { unfold _check_time_fields.
    repeat (apply andb_true_iff; split); apply Z.leb_le; lia. }
  split.
  - change ([y1; y2; y3; y4] ++ lit "-" ++ [m1; m2] ++ lit "-" ++ [d1; d2])
      with ([y1; y2; y3; y4; 45; m1; m2; 45; d1] ++ [d2])%N.
    apply (@parse_iso_utc_naive_text local _ d2
             (mk_datetime y m d 0 0 0 0 None));
      [intros ->; discriminate Dd2 | | reflexivity].
    unfold fromisoformat, _parse_isoformat_date, slice, char_is.
    cbn [app firstn skipn Nat.sub slice is_empty].
    rewrite Py. cbn [bind].
    change (str_eqb [45%N] (lit "-")) with true. cbv iota.
    rewrite Pm. cbn [bind]. rewrite Pd. cbn [bind].
    change (new_datetime y m d 0 0 0 0 None
            = Ok (mk_datetime y m d 0 0 0 0 None)).
    unfold new_datetime. rewrite Hd. reflexivity.
  - change ([y1; y2; y3; y4] ++ lit "-" ++ [m1; m2] ++ lit "-" ++ [d1; d2]
            ++ [sep] ++ [h1; h2] ++ lit ":" ++ [n1; n2])
      with ([y1; y2; y3; y4; 45; m1; m2; 45; d1; d2; sep; h1; h2; 58; n1]
            ++ [n2])%N.
    apply (@parse_iso_utc_naive_text local _ n2
             (mk_datetime y m d hh mm 0 0 None));
      [intros ->; discriminate Dn2 | | reflexivity].
    unfold fromisoformat, _parse_isoformat_date, slice, char_is.
    cbn [app firstn skipn Nat.sub slice is_empty].
    rewrite Py. cbn [bind].
    change (str_eqb [45%N] (lit "-")) with true. cbv iota.
    rewrite Pm. cbn [bind]. rewrite Pd. cbn [bind].
    match goal with
    | |- context [_parse_isoformat_time ?l] =>
        rewrite (@parse_isoformat_time_naive l [hh; mm; 0%Z; 0%Z]
                   ltac:(not_in_digits) ltac:(not_in_digits)
                   ltac:(simpl; lia) (@parse_hh_mm _ _ _ _ _ _ Ph Pn))
    end.
    cbn [bind].
    change (new_datetime y m d hh mm 0 0 None
            = Ok (mk_datetime y m d hh mm 0 0 None)).
    unfold new_datetime. rewrite Hd, Ht. reflexivity.
Qed.

Lemma parse_iso_utc_short_forms_witness :
  parse_iso_utc (fun _ => 3600000000%Z)
    (fmt_d 4 2024 ++ lit "-" ++ fmt_d 2 2 ++ lit "-" ++ fmt_d 2 29)
  = Ok (mk_datetime 2024 2 29 0 0 0 0 (Some utc))
  /\ parse_iso_utc (fun _ => 3600000000%Z)
       (fmt_d 4 2024 ++ lit "-" ++ fmt_d 2 2 ++ lit "-" ++ fmt_d 2 29
        ++ [84%N] ++ fmt_d 2 7 ++ lit ":" ++ fmt_d 2 5)
     = Ok (mk_datetime 2024 2 29 7 5 0 0 (Some utc)).
Proof.
  apply (@parse_iso_utc_short_forms (fun _ => 3600000000%Z)
           2024 2 29 7 5 84%N).
  - reflexivity.
  - lia.
  - lia.
Defined.

(** ** Texts too short for a date *)





(** ** Blank fields *)

Lemma lstrip_nil (s : str) :
  lstrip s = [] <-> Forall (fun c => isspace c = true) s.
Proof.
  induction s as [|c s IH]; cbn [lstrip].
  - split; [constructor | reflexivity].
  - destruct (isspace c) eqn:E.
    + rewrite IH. split.
      * intros H. constructor; assumption.
      * intros H. inversion H. assumption.
    + split; [discriminate|]. intros H. inversion H. congruence.
Qed.

Lemma lstrip_head (s : str) (c : char) (t : str) :
  lstrip s = c :: t -> isspace c = false.
Proof.
  induction s as [|x s IH]; cbn [lstrip]; [discriminate|].
  destruct (isspace x) eqn:E; [exact IH|].
  intros H. injection H as <- _. exact E.
Qed.

(** [strip] leaves nothing exactly of the strings made of whitespace. *)
Lemma strip_nil (s : str) :
  strip s = [] <-> Forall (fun c => isspace c = true) s.
Proof.
  unfold strip, rstrip. split.
  - intros H. apply lstrip_nil.
    destruct (lstrip s) as [|c t] eqn:E; [reflexivity|exfalso].
    apply lstrip_head in E.
    assert (H' : lstrip (rev (c :: t)) = []).
    { apply (f_equal (@rev char)) in H. rewrite rev_involutive in H.
      exact H. }
    apply lstrip_nil in H'. rewrite Forall_forall in H'.
    specialize (H' c). rewrite <- in_rev in H'.
    rewrite H' in E by (left; reflexivity). discriminate E.
  - intros H. apply lstrip_nil in H. rewrite H. reflexivity.
Qed.

(** X15: [create] answers with the message for required fields exactly
    when the title or [until_iso] is missing from the form, empty, or made
    of whitespace only; the table is then left as it was. *)
Theorem create_required_fields
    (entropy : nat -> nat) (local : datetime -> timedelta) (depth : nat)
    (now : datetime) (concurrent : list Event) (f : form) (w : world) :
  (fst (create entropy local depth now concurrent f w)
   = Aborted 400 RequiredFields
   <-> blank (form_get f (lit "title"))
       \/ blank (form_get f (lit "until_iso")))
  /\ (blank (form_get f (lit "title"))
      \/ blank (form_get f (lit "until_iso")) ->
      snd (create entropy local depth now concurrent f w) = w).
Proof.
  unfold blank. rewrite <- !strip_nil.
  fold (submitted_title f). fold (submitted_until f).
  split; [split|].
  - rewrite create_eq.
    destruct (is_empty (submitted_title f)) eqn:Et;
      [intros _; left; apply is_empty_true; exact Et|].
    destruct (is_empty (submitted_until f)) eqn:Eu;
      [intros _; right; apply is_empty_true; exact Eu|].
    cbn [orb].
    destruct (parse_iso_utc local (submitted_until f)) as [u|e];
      [|discriminate].
    destruct (ensure_unique_slug entropy depth (db w) 6 (rng w))
      as [[s|e] c]; [|discriminate].
    destruct (add_commit now (commit_all (db w) concurrent) s
                (firstn 200 (submitted_title f)) u); discriminate.
  - intros H.
    rewrite (@create_blank entropy local depth now concurrent f w H).
    reflexivity.
  - intros H.
    rewrite (@create_blank entropy local depth now concurrent f w H).
    reflexivity.
Qed.

(** ** The index *)

Lemma insert_desc_perm (ev : Event) (l : list Event) :
  Permutation (insert_desc ev l) (ev :: l).
Proof.
  induction l as [|x l IH]; cbn [insert_desc]; [reflexivity|].
  destruct (instant (created_at x) <=? instant (created_at ev))%Z;
    [reflexivity|].
  rewrite IH. apply perm_swap.
Qed.

Lemma insert_desc_sorted (ev : Event) (l : list Event) :
  StronglySorted not_older l -> StronglySorted not_older (insert_desc ev l).
Proof.
  induction l as [|x l IH]; intros Hs; cbn [insert_desc].
  - constructor; constructor.
  - inversion Hs as [|? ? Hl Hx]; subst.
    destruct (instant (created_at x) <=? instant (created_at ev))%Z eqn:E.
    + apply Z.leb_le in E. constructor; [exact Hs|].
      constructor; [exact E|].
      eapply Forall_impl; [|exact Hx]. unfold not_older. intros a Ha. lia.
    + apply Z.leb_gt in E. constructor; [apply IH; exact Hl|].
      rewrite (insert_desc_perm ev l).
      constructor; [unfold not_older; lia | exact Hx].
Qed.

Lemma order_by_created_at_desc_spec (db : table) :
  Permutation (order_by_created_at_desc db) db
  /\ StronglySorted not_older (order_by_created_at_desc db).
Proof.
  unfold order_by_created_at_desc.
  induction db as [|ev db [IHp IHs]]; cbn [fold_right].
  - split; constructor.
  - split.
    + rewrite insert_desc_perm. constructor. exact IHp.
    + apply insert_desc_sorted. exact IHs.
Qed.

(** X16: [index] lists the 8 most recently created rows, or all of them
    when there are fewer, newest first: the listed rows followed by some
    arrangement of the others are the rows of the table in an order in
    which no row is older than a later one; and it hands the template the
    serialisation of the clock. *)
Theorem index_most_recent (now : datetime) (w : world) :
  (exists others,
      Permutation (events (index now w) ++ others) (db w)
      /\ StronglySorted not_older (events (index now w) ++ others))
  /\ List.length (events (index now w)) = Nat.min 8 (List.length (db w))
  /\ server_utc_now (index now w) = iso_z now.
Proof.
  destruct (order_by_created_at_desc_spec (db w)) as [Hp Hs].
  unfold index. cbn [events server_utc_now]. split; [|split].
  - exists (skipn 8 (order_by_created_at_desc (db w))).
    rewrite firstn_skipn. split; assumption.
  - rewrite length_firstn, (Permutation_length Hp). reflexivity.
  - reflexivity.
Qed.

(** ** Earlier events under [create] *)

Lemma select_by_slug_app (db added : table) (s : str) (ev : Event) :
  select_by_slug db s = Some ev -> select_by_slug (db ++ added) s = Some ev.
Proof.
  unfold select_by_slug. induction db as [|x db IH]; cbn [app List.find];
    [discriminate|].
  destruct (str_eqb (slug x) s); [tauto | exact IH].
Qed.

(** X17: [create] does not change what the view of an existing slug
    shows, whatever it answers and whatever other sessions commit
    meanwhile. *)
Theorem create_preserves_views
    (entropy : nat -> nat) (local : datetime -> timedelta) (depth : nat)
    (now later : datetime) (concurrent : list Event) (f : form) (w : world)
    (s : str) (ev : Event) :
  select_by_slug (db w) s = Some ev ->
  select_by_slug
    (db (snd (create entropy local depth now concurrent f w))) s = Some ev
  /\ event_page local later
       (snd (create entropy local depth now concurrent f w)) s
     = event_page local later w s.
Proof.
  intros Hsel.
  assert (Hnew : select_by_slug
                   (db (snd (create entropy local depth now concurrent f w)))
                   s = Some ev).
  { destruct (proj2 (commit_all_spec concurrent (db w))) as [added Ha].
    destruct (create_cases entropy local depth now concurrent f w)
      as [(m & _ & ->) | [(_ & ->) | [(_ & -> & _)
         | (s1 & c & u & _ & _ & _ & _ & ->)]]]; try exact Hsel.
    - rewrite Ha. apply select_by_slug_app. exact Hsel.
    - cbn [snd db]. rewrite Ha, <- app_assoc.
      apply select_by_slug_app. exact Hsel. }
  split; [exact Hnew|]. unfold event_page. rewrite Hnew, Hsel. reflexivity.
Qed.

Lemma create_preserves_views_witness :
  select_by_slug
    (db (snd (create (fun _ => 0) (fun _ => 0%Z) 3 sample_now
                [sample_row "zzzzzz"]
                (sample_form (lit "Party") (lit "2025-09-22T15:30:00Z"))
                (mk_world [sample_row "aaaaaa"] 0))))
    (lit "aaaaaa")
  = Some (sample_row "aaaaaa")
  /\ event_page (fun _ => 0%Z) sample_now
       (snd (create (fun _ => 0) (fun _ => 0%Z) 3 sample_now
               [sample_row "zzzzzz"]
               (sample_form (lit "Party") (lit "2025-09-22T15:30:00Z"))
               (mk_world [sample_row "aaaaaa"] 0)))
       (lit "aaaaaa")
     = event_page (fun _ => 0%Z) sample_now
         (mk_world [sample_row "aaaaaa"] 0) (lit "aaaaaa").
Proof.
  apply (@create_preserves_views (fun _ => 0) (fun _ => 0%Z) 3 sample_now
           sample_now [sample_row "zzzzzz"]
           (sample_form (lit "Party") (lit "2025-09-22T15:30:00Z"))
           (mk_world [sample_row "aaaaaa"] 0) (lit "aaaaaa")
           (sample_row "aaaaaa")).
  reflexivity.
Defined.

(** ** The ends of a trimmed title *)

Lemma lstrip_suffix (s : str) : exists ws, s = ws ++ lstrip s.
Proof.
  induction s as [|c s [ws IH]]; cbn [lstrip]; [exists []; reflexivity|].
  destruct (isspace c).
  - exists (c :: ws). cbn [app]. f_equal. exact IH.
  - exists []. reflexivity.
Qed.

Lemma strip_ends (s : str) :
  strip s <> [] ->
  exists c t l u,
    strip s = c :: t /\ isspace c = false
    /\ strip s = u ++ [l] /\ isspace l = false.
Proof.
  unfold strip, rstrip. intros Hne.
  destruct (lstrip (rev (lstrip s))) as [|l B] eqn:EB;
    [contradiction Hne; reflexivity|].
  pose proof (lstrip_head _ EB) as Hl.
  destruct (lstrip_suffix (rev (lstrip s))) as [ws Hws].
  rewrite EB in Hws.
  assert (HA : lstrip s = rev (l :: B) ++ rev ws).
  { rewrite <- rev_app_distr, <- Hws, rev_involutive. reflexivity. }
  destruct (rev (l :: B)) as [|c t] eqn:ER.
  - apply (f_equal (@List.length char)) in ER.
    rewrite length_rev in ER. discriminate ER.
  - exists c, t, l, (rev B). split; [reflexivity|]. split.
    + cbn [app] in HA. apply (lstrip_head _ HA).
    + split; [|exact Hl]. rewrite <- ER. reflexivity.
Qed.

(** X18: the title that a successful [create] stores begins with a
    character that is not whitespace, and, when the trimmed title has at
    most 200 characters, ends with one. *)
Theorem create_title_ends
    (entropy : nat -> nat) (local : datetime -> timedelta) (depth : nat)
    (now : datetime) (concurrent : list Event) (f : form) (w w' : world)
    (st : Z) (loc : str) :
  create entropy local depth now concurrent f w = (Redirected st loc, w') ->
  exists ev,
    db w' = commit_all (db w) concurrent ++ [ev]
    /\ (exists c t, title ev = c :: t /\ isspace c = false)
    /\ (List.length (submitted_title f) <= 200 ->
        exists u l, title ev = u ++ [l] /\ isspace l = false).
Proof.
  intros H.
  destruct (create_cases entropy local depth now concurrent f w)
    as [(m & Hr & _) | [(Hr & _) | [(Hr & _)
       | (s & c & u & Ht & Hp & Hs & Hsel & Hr)]]];
    try (rewrite H in Hr; discriminate Hr).
  rewrite H in Hr. pose proof (f_equal snd Hr) as Hw.
  cbn [snd] in Hw. subst w'. clear Hr.
  eexists. split; [reflexivity|]. cbn [title].
  destruct (strip_ends _ Ht) as (c0 & t & l & pre & E1 & Hc & E2 & Hl).
  split.
  - exists c0, (firstn 199 t). split; [|exact Hc].
    unfold submitted_title. rewrite E1. reflexivity.
  - intros Hlen. exists pre, l. split; [|exact Hl].
    rewrite firstn_all2 by exact Hlen.
    unfold submitted_title. exact E2.
Qed.

Lemma create_title_ends_witness :
  exists st loc w',
    create (fun i => i) (fun _ => 0%Z) 1 sample_now []
      (sample_form (lit "  Launch day ") (lit "2025-09-22T15:30:00Z"))
      (mk_world [] 0)
    = (Redirected st loc, w')
    /\ exists ev,
         db w' = commit_all [] [] ++ [ev]
         /\ (exists c t, title ev = c :: t /\ isspace c = false)
         /\ (List.length
               (submitted_title
                  (sample_form (lit "  Launch day ")
                     (lit "2025-09-22T15:30:00Z"))) <= 200 ->
             exists u l, title ev = u ++ [l] /\ isspace l = false).
Proof.
  eexists. eexists. eexists.
  refine (let H := _ in
          conj H (@create_title_ends (fun i => i) (fun _ => 0%Z) 1
                    sample_now []
                    (sample_form (lit "  Launch day ")
                       (lit "2025-09-22T15:30:00Z"))
                    (mk_world [] 0) _ _ _ H)).
  vm_compute. reflexivity.
Defined.
